(** * The clean-and-impute stage of the SDG7 pipeline ([dags/DAG.py])

    A shallow embedding of [clean_data]: the column-name normalisation, the
    column pruning, the percentage clamp, the decimal-separator repair, the
    imputation block and the year cast, over a small model of the pandas
    frame the stage works on. *)

From Stdlib Require Import List String Ascii Bool ZArith NArith Lia.
From Stdlib Require Import Floats.SpecFloat.
Import ListNotations.

Local Open Scope bool_scope.

(** ** Column-name normalisation (lines 64-78)

    Header names are byte strings; [str.lower] acts on the ASCII letters and
    the three regular expressions are written out as list functions. *)
Module Norm.

Definition code (c : ascii) : N := N_of_ascii c.

Definition between (lo hi : N) (c : ascii) : bool :=
  (lo <=? code c)%N && (code c <=? hi)%N.

Definition is_upper (c : ascii) : bool := between 65 90 c.

(** [col.lower()] on one character. *)
Definition lower_char (c : ascii) : ascii :=
  if is_upper c then ascii_of_N (code c + 32) else c.

Definition lower (s : list ascii) : list ascii := map lower_char s.

Definition is_open (c : ascii) : bool := Ascii.eqb c "(".
Definition is_close (c : ascii) : bool := Ascii.eqb c ")".

(** [re.sub(r'\([^)]*\)', '', col)]: scanning from the left, an opening
    parenthesis that is followed somewhere by a closing one starts a match
    that runs to the first closing parenthesis; the match is removed and the
    scan resumes after it.  [inside] records that such a match is open. *)
Fixpoint sub_parens_from (inside : bool) (s : list ascii) : list ascii :=
  match s with
  | [] => []
  | c :: r =>
      if inside then
        if is_close c then sub_parens_from false r else sub_parens_from true r
      else if is_open c && existsb is_close r then sub_parens_from true r
      else c :: sub_parens_from false r
  end.

Definition sub_parens (s : list ascii) : list ascii := sub_parens_from false s.

(** The class [[a-z0-9_]]. *)
Definition word_char (c : ascii) : bool :=
  between 97 122 c || between 48 57 c || (code c =? 95)%N.

(** [re.sub(r'[^a-z0-9_]', ' ', col)]. *)
Definition sub_non_word (s : list ascii) : list ascii :=
  map (fun c => if word_char c then c else " "%char) s.

(** The class [[\s-]]: the white space of [\s] below 128 (tab, line feed,
    vertical tab, form feed, carriage return, the four separators 28-31 and
    the space) and the hyphen. *)
Definition is_sep (c : ascii) : bool :=
  between 9 13 c || between 28 32 c || (code c =? 45)%N.

(** [re.sub(r'[\s-]+', '_', col)]: every maximal run becomes one underscore.
    [in_run] is true while the previous character belonged to a run. *)
Fixpoint sub_seps_from (in_run : bool) (s : list ascii) : list ascii :=
  match s with
  | [] => []
  | c :: r =>
      if is_sep c then
        if in_run then sub_seps_from true r else "_"%char :: sub_seps_from true r
      else c :: sub_seps_from false r
  end.

Definition sub_seps (s : list ascii) : list ascii := sub_seps_from false s.

Definition is_us (c : ascii) : bool := Ascii.eqb c "_".

Fixpoint lstrip (s : list ascii) : list ascii :=
  match s with
  | [] => []
  | c :: r => if is_us c then lstrip r else s
  end.

Fixpoint rstrip (s : list ascii) : list ascii :=
  match s with
  | [] => []
  | c :: r =>
      match rstrip r with
      | [] => if is_us c then [] else [c]
      | r' => c :: r'
      end
  end.

(** [.strip('_')]. *)
Definition strip (s : list ascii) : list ascii := rstrip (lstrip s).

(** The body of the loop at lines 64-77, on the characters of one name. *)
Definition normalise_chars (s : list ascii) : list ascii :=
  strip (sub_seps (sub_non_word (sub_parens (lower s)))).

Definition normalise (col : string) : string :=
  string_of_list_ascii (normalise_chars (list_ascii_of_string col)).

(** A name in normal form: only [[a-z0-9_]], no underscore at either end. *)
Definition normal_form (s : list ascii) : Prop :=
  forallb word_char s = true /\ lstrip s = s /\ rstrip s = s.

End Norm.

(** ** Binary64 numbers

    The [float64] cells of a frame, as the IEEE 754 values of
    [SpecFloat] with 53 bits of precision. *)
Module F64.

Definition prec : Z := 53.
Definition emax : Z := 1024.

Definition float : Type := spec_float.

Definition nan : float := S754_nan.

Definition is_nan (x : float) : bool :=
  match x with S754_nan => true | _ => false end.

Definition is_inf (x : float) : bool :=
  match x with S754_infinity _ => true | _ => false end.

Definition is_finite (x : float) : bool := negb (is_nan x || is_inf x).

(** The conversion of an integer to [float64], rounding to nearest even. *)
Definition of_Z (z : Z) : float := binary_normalize prec emax z 0 false.

Definition of_bool (b : bool) : float := if b then of_Z 1 else of_Z 0.

Definition ltb (x y : float) : bool := SFltb x y.
Definition leb (x y : float) : bool := SFleb x y.
Definition add (x y : float) : float := SFadd prec emax x y.
Definition div (x y : float) : float := SFdiv prec emax x y.

(** The integer part (rounding toward zero) of a finite number. *)
Definition trunc (x : float) : option Z :=
  match x with
  | S754_zero _ => Some 0%Z
  | S754_finite s m e =>
      Some (cond_Zopp s
              match e with
              | Z0 => Zpos m
              | Zpos k => (Zpos m * 2 ^ Zpos k)%Z
              | Zneg k => (Zpos m / 2 ^ Zpos k)%Z
              end)
  | _ => None
  end.

(** The integer a number denotes, when it denotes one exactly. *)
Definition exact_int (x : float) : option Z :=
  match x with
  | S754_zero _ => Some 0%Z
  | S754_finite s m e =>
      match e with
      | Z0 => Some (cond_Zopp s (Zpos m))
      | Zpos k => Some (cond_Zopp s (Zpos m * 2 ^ Zpos k)%Z)
      | Zneg k =>
          if (Zpos m mod 2 ^ Zpos k =? 0)%Z
          then Some (cond_Zopp s (Zpos m / 2 ^ Zpos k)%Z)
          else None
      end
  | _ => None
  end.

Definition f100 : float := of_Z 100.

End F64.

(** ** Exceptions and results *)
Inductive exn : Type :=
  | KeyError (label : string)
  | TypeError
  | AttributeError
  | ValueError
  | OverflowError
  | FileNotFoundError (path : string).

Inductive result (A : Type) : Type :=
  | Ok (a : A)
  | Raise (e : exn).

Arguments Ok {A} a.
Arguments Raise {A} e.

Definition bind {A B : Type} (r : result A) (k : A -> result B) : result B :=
  match r with
  | Ok a => k a
  | Raise e => Raise e
  end.

Notation "x <- r ;; k" := (bind r (fun x => k))
  (at level 61, r at next level, right associativity).

Fixpoint mapM {A B : Type} (f : A -> result B) (l : list A) : result (list B) :=
  match l with
  | [] => Ok []
  | a :: r => b <- f a ;; bs <- mapM f r ;; Ok (b :: bs)
  end.

(** ** Frames

    The table [pd.read_csv] hands to the stage: a row count and labelled,
    typed columns.  An [object] column holds Python scalars; a missing cell
    of a [float64] or [object] column is the number NaN. *)
Module Frame.

Import F64.

Inductive obj : Type :=
  | OStr (s : string)
  | OInt (z : Z)
  | OFloat (x : float)
  | OBool (b : bool).

Inductive column : Type :=
  | ColInt (xs : list Z)
  | ColFloat (xs : list float)
  | ColBool (xs : list bool)
  | ColObj (xs : list obj).

Record frame : Type := mkFrame {
  nrows : nat;
  cols : list (string * column)
}.

Definition col_len (c : column) : nat :=
  match c with
  | ColInt xs => List.length xs
  | ColFloat xs => List.length xs
  | ColBool xs => List.length xs
  | ColObj xs => List.length xs
  end.

Definition names (f : frame) : list string := map fst (cols f).

Definition mem (l : string) (ls : list string) : bool :=
  existsb (String.eqb l) ls.

Fixpoint nodupb (ls : list string) : bool :=
  match ls with
  | [] => true
  | l :: r => negb (mem l r) && nodupb r
  end.

(** Every column has one cell per row. *)
Definition rectangular (f : frame) : Prop :=
  Forall (fun c => col_len (snd c) = nrows f) (cols f).

Definition rectangularb (f : frame) : bool :=
  forallb (fun c => Nat.eqb (col_len (snd c)) (nrows f)) (cols f).

(** The labels are pairwise distinct: the case in which [data[label]] is a
    single column, as the stage assumes throughout. *)
Definition unique_labels (f : frame) : Prop := NoDup (names f).

Definition is_missing (o : obj) : bool :=
  match o with OFloat x => is_nan x | _ => false end.

(** [data[label]]. *)
Fixpoint lookup (label : string) (cs : list (string * column)) : option column :=
  match cs with
  | [] => None
  | (l, c) :: r => if String.eqb l label then Some c else lookup label r
  end.

Definition get (label : string) (f : frame) : result column :=
  match lookup label (cols f) with
  | Some c => Ok c
  | None => Raise (KeyError label)
  end.

(** [data[label] = c] for a label the frame has: the column is replaced in
    place. *)
Definition set (label : string) (c : column) (f : frame) : frame :=
  mkFrame (nrows f)
    (map (fun lc => if String.eqb (fst lc) label then (fst lc, c) else lc) (cols f)).

(** [data.columns = [g(l) for l in data.columns]]. *)
Definition rename (g : string -> string) (f : frame) : frame :=
  mkFrame (nrows f) (map (fun lc => (g (fst lc), snd lc)) (cols f)).

(** [data.drop(columns=labels, axis=1, inplace=True)]: a label the frame
    does not have raises [KeyError]. *)
Definition drop (labels : list string) (f : frame) : result frame :=
  match find (fun l => negb (mem l (names f))) labels with
  | Some l => Raise (KeyError l)
  | None =>
      Ok (mkFrame (nrows f)
            (filter (fun lc => negb (mem (fst lc) labels)) (cols f)))
  end.

Inductive dtype : Type := Int64 | Float64 | Boolean | Object.

Definition dtype_of (c : column) : dtype :=
  match c with
  | ColInt _ => Int64
  | ColFloat _ => Float64
  | ColBool _ => Boolean
  | ColObj _ => Object
  end.


(** [include='number'] takes the integer and the floating-point columns,
    [include='object'] the object ones; a boolean column is in neither. *)
Definition is_number (c : column) : bool :=
  match dtype_of c with Int64 | Float64 => true | _ => false end.

Definition is_object (c : column) : bool :=
  match dtype_of c with Object => true | _ => false end.

(** [data.select_dtypes(include=...)]. *)
Definition select_dtypes (include : column -> bool) (f : frame) : frame :=
  mkFrame (nrows f) (filter (fun lc => include (snd lc)) (cols f)).

(** [pd.concat([a, b], axis=1)] of two frames over the same index. *)
Definition concat (a b : frame) : frame :=
  mkFrame (nrows a) (cols a ++ cols b).

End Frame.

(** ** The stage [clean_data] (lines 48-120) *)
Module Clean.

Import F64 Frame.
Local Open Scope string_scope.

(** What the stage takes from outside the repository: Python's [float] and
    [int] on a string ([None] when they raise [ValueError]), and the value
    scikit-learn's [KNNImputer(n_neighbors=15)] computes for the missing cell
    in row [i] of column [j] of the matrix [m] it was fitted on (given by
    columns). *)
Record runtime : Type := mkRuntime {
  py_float : string -> option float;
  py_int : string -> option Z;
  knn_value : list (list float) -> nat -> nat -> float
}.

Definition dropped_cols : list string :=
  ["financial_flows_to_developing_countries"; "renewables"].

Definition pct_cols : list string :=
  ["access_to_electricity"; "access_to_clean_fuels_for_cooking";
   "renewable_energy_share_in_the_total_final_energy_consumption";
   "low_carbon_electricity"].

Definition density_col : string := "density_n".
Definition year_col : string := "year".
Definition clean_path : string := "/opt/airflow/data_clean.csv".

(** The columns the stage looks up by name. *)
Definition expected_cols : list string :=
  dropped_cols ++ pct_cols ++ [density_col; year_col].

(** *** Lines 62-78: the header *)
Definition normalise_columns (data : frame) : frame :=
  rename Norm.normalise data.

(** *** Lines 86-88: [data.loc[data[col] > 100, col] = 100] *)
Definition clamp_int (z : Z) : Z := if (100 <? z)%Z then 100%Z else z.

Definition clamp_float (x : float) : float := if ltb f100 x then f100 else x.

(** On an [object] column the comparison is made cell by cell: a missing
    cell compares false, a string raises [TypeError]. *)
Definition gt100_obj (o : obj) : result bool :=
  match o with
  | OStr _ => Raise TypeError
  | OInt z => Ok (100 <? z)%Z
  | OFloat x => Ok (ltb f100 x)
  | OBool _ => Ok false
  end.

Definition clamp_obj (o : obj) : result obj :=
  above <- gt100_obj o ;; Ok (if above then OInt 100 else o).

Definition clamp_column (c : column) : result column :=
  match c with
  | ColInt xs => Ok (ColInt (map clamp_int xs))
  | ColFloat xs => Ok (ColFloat (map clamp_float xs))
  | ColBool xs => Ok (ColBool xs)
  | ColObj xs => ys <- mapM clamp_obj xs ;; Ok (ColObj ys)
  end.

Definition clamp (col : string) (data : frame) : result frame :=
  c <- get col data ;;
  c' <- clamp_column c ;;
  Ok (set col c' data).

(** The loop [for col in pct_cols]. *)
Fixpoint clamp_all (labels : list string) (data : frame) : result frame :=
  match labels with
  | [] => Ok data
  | col :: rest => data' <- clamp col data ;; clamp_all rest data'
  end.

(** *** Lines 92-93: the density column *)
Definition replace_commas (s : string) : string :=
  string_of_list_ascii
    (map (fun c => if Ascii.eqb c "," then "."%char else c)
         (list_ascii_of_string s)).

Definition is_num_obj (o : obj) : bool :=
  match o with OInt _ | OFloat _ => true | _ => false end.

Definition is_bool_obj (o : obj) : bool :=
  match o with OBool _ => true | _ => false end.

(** Whether a Series of [object] cells has the [.str] accessor: pandas
    refuses it when the cells that are not missing are all numbers or all
    booleans. *)
Definition has_str_accessor (xs : list obj) : bool :=
  let present := filter (fun o => negb (is_missing o)) xs in
  match present with
  | [] => true
  | _ => negb (forallb is_num_obj present || forallb is_bool_obj present)
  end.

(** [.str.replace(',', '.')]: a cell that is not a string becomes missing. *)
Definition str_replace_obj (o : obj) : obj :=
  match o with
  | OStr s => OStr (replace_commas s)
  | _ => OFloat nan
  end.

Definition str_replace (c : column) : result column :=
  match c with
  | ColObj xs =>
      if has_str_accessor xs then Ok (ColObj (map str_replace_obj xs))
      else Raise AttributeError
  | _ => Raise AttributeError
  end.

(** The [float64] values of a numeric column, as the imputer reads them. *)
Definition to_float64 (c : column) : list float :=
  match c with
  | ColInt xs => map of_Z xs
  | ColFloat xs => xs
  | _ => []
  end.

(** A numeric column with every cell observed. *)
Definition fully_observed (c : column) : bool :=
  is_number c && forallb (fun x => negb (is_nan x)) (to_float64 c).

Section WithRuntime.

Variable rt : runtime.

(** [float(o)] for one cell of an [object] column. *)
Definition obj_to_float (o : obj) : result float :=
  match o with
  | OStr s =>
      match py_float rt s with
      | Some x => Ok x
      | None => Raise ValueError
      end
  | OInt z => if is_inf (of_Z z) then Raise OverflowError else Ok (of_Z z)
  | OFloat x => Ok x
  | OBool b => Ok (of_bool b)
  end.

(** [.astype('float')], as the values of the new column. *)
Definition astype_float (c : column) : result (list float) :=
  match c with
  | ColInt xs => Ok (map of_Z xs)
  | ColFloat xs => Ok xs
  | ColBool xs => Ok (map of_bool xs)
  | ColObj xs => mapM obj_to_float xs
  end.

(** Line 92 stores the repaired strings back; line 93 computes the float
    column and drops it, so only its exception is left. *)
Definition fix_density (data : frame) : result frame :=
  c <- get density_col data ;;
  repaired <- str_replace c ;;
  let data := set density_col repaired data in
  c <- get density_col data ;;
  _ <- astype_float c ;;
  Ok data.

(** *** Lines 98-110: imputation *)
Fixpoint imap_from {A B : Type} (i : nat) (f : nat -> A -> B) (l : list A) : list B :=
  match l with
  | [] => []
  | a :: r => f i a :: imap_from (S i) f r
  end.

Definition imap {A B : Type} (f : nat -> A -> B) (l : list A) : list B :=
  imap_from 0 f l.

Definition all_missing (col : list float) : bool := forallb is_nan col.

Definition impute_column (m : list (list float)) (j : nat) (col : list float)
  : list float :=
  imap (fun i x => if is_nan x then knn_value rt m j i else x) col.

(** [KNNImputer.transform] on the fitted matrix: a column with no observed
    value is left out of the result, the missing cells of the others are
    filled, the observed cells are kept. *)
Definition knn_transform (m : list (list float)) : list (list float) :=
  map (fun jc => impute_column m (fst jc) (snd jc))
      (filter (fun jc => negb (all_missing (snd jc)))
              (combine (seq 0 (List.length m)) m)).

(** [imputer.fit_transform(numerics)]: scikit-learn validates the input (at
    least one row and one column, every cell a number or NaN, none
    infinite), raising [ValueError] otherwise, and converts it to
    [float64]. *)
Definition fit_transform (X : frame) : result (list (list float)) :=
  if Nat.eqb (nrows X) 0 then Raise ValueError
  else
    match cols X with
    | [] => Raise ValueError
    | _ =>
        m <- mapM (fun lc => astype_float (snd lc)) (cols X) ;;
        if existsb (existsb is_inf) m then Raise ValueError
        else Ok (knn_transform m)
    end.

(** [pd.DataFrame(values, columns=labels, index=...)]: the number of labels
    has to be the number of columns of [values]. *)
Definition data_frame (values : list (list float)) (labels : list string) (n : nat)
  : result frame :=
  if Nat.eqb (List.length values) (List.length labels)
  then Ok (mkFrame n (combine labels (map ColFloat values)))
  else Raise ValueError.

Fixpoint insert_sorted (x : float) (l : list float) : list float :=
  match l with
  | [] => [x]
  | y :: r => if leb x y then x :: l else y :: insert_sorted x r
  end.

Definition sort (l : list float) : list float := fold_right insert_sorted [] l.

(** The median of the observed values, NaN when there is none. *)
Definition nanmedian (xs : list float) : float :=
  let ys := sort (filter (fun x => negb (is_nan x)) xs) in
  let n := List.length ys in
  if Nat.eqb n 0 then nan
  else if Nat.odd n then nth (n / 2) ys nan
  else div (add (nth (n / 2 - 1) ys nan) (nth (n / 2) ys nan)) (of_Z 2).

(** [Series.median()], as line 110 relies on it: a column that is not
    [float64] is cast first, so the strings of [density_n] are read as
    numbers, and a cell that cannot be cast raises [TypeError]. *)
Definition median (c : column) : result float :=
  match astype_float c with
  | Ok xs => Ok (nanmedian xs)
  | Raise ValueError => Raise TypeError
  | Raise e => Raise e
  end.

Definition fillna_float (v : float) (x : float) : float :=
  if is_nan x then v else x.

Definition fillna_obj (v : float) (o : obj) : obj :=
  if is_missing o then OFloat v else o.

Definition int64_min : Z := - 2 ^ 63.
Definition int64_max : Z := 2 ^ 63 - 1.
Definition uint64_max : Z := 2 ^ 64 - 1.

(** An [object] column that was filled is looked at once more by pandas
    ([Block.convert]): when every cell is then a number the column comes
    back as [float64], an integer cell read as the nearest [float64].  A
    string or a boolean among the cells keeps the column [object]; so does
    an integer below [int64_min] or above [uint64_max], and an integer above
    [int64_max] beside a negative one. *)
Definition obj_as_float (o : obj) : option float :=
  match o with
  | OFloat x => Some x
  | OInt z =>
      if (int64_min <=? z)%Z && (z <=? uint64_max)%Z then Some (of_Z z) else None
  | _ => None
  end.

Fixpoint as_floats (os : list obj) : option (list float) :=
  match os with
  | [] => Some []
  | o :: r =>
      match obj_as_float o, as_floats r with
      | Some x, Some xs => Some (x :: xs)
      | _, _ => None
      end
  end.

Definition above_int64 (o : obj) : bool :=
  match o with OInt z => (int64_max <? z)%Z | _ => false end.

Definition negative_int (o : obj) : bool :=
  match o with OInt z => (z <? 0)%Z | _ => false end.

Definition convert (os : list obj) : column :=
  if existsb above_int64 os && existsb negative_int os then ColObj os
  else
    match as_floats os with
    | Some xs => ColFloat xs
    | None => ColObj os
    end.

(** The fill of one column.  An [object] column with no missing cell is
    returned as it is: the column [pd.read_csv] builds as [object] without a
    gap holds a string, which keeps it [object] in any case. *)
Definition fillna_column (v : float) (c : column) : column :=
  match c with
  | ColFloat xs => ColFloat (map (fillna_float v) xs)
  | ColObj xs =>
      if existsb is_missing xs then convert (map (fillna_obj v) xs) else c
  | _ => c
  end.

(** [data_imputed.fillna(v, inplace=True)], on every column of the frame. *)
Definition fillna (v : float) (data : frame) : frame :=
  mkFrame (nrows data)
    (map (fun lc => (fst lc, fillna_column v (snd lc))) (cols data)).

(** Lines 98-107: split by dtype, impute the numbers, put the two parts side
    by side. *)
Definition knn_impute (data : frame) : result frame :=
  let numerics := select_dtypes is_number data in
  let numeric_cols := names numerics in
  let categoricals := select_dtypes is_object data in
  numerics_imputed <- fit_transform numerics ;;
  numerics_df <- data_frame numerics_imputed numeric_cols (nrows numerics) ;;
  Ok (concat categoricals numerics_df).

Definition impute_missing (data : frame) : result frame :=
  data_imputed <- knn_impute data ;;
  density <- get density_col data ;;
  v <- median density ;;
  Ok (fillna v data_imputed).

(** *** Line 114: the year *)
Definition in_int64 (z : Z) : bool := (int64_min <=? z)%Z && (z <=? int64_max)%Z.

(** The cast of a finite [float64] to [int64]: the integer part, and
    [int64_min] when that is out of range. *)
Definition float_to_int64 (x : float) : Z :=
  match trunc x with
  | Some z => if in_int64 z then z else int64_min
  | None => int64_min
  end.

Definition fit_int64 (z : Z) : result Z :=
  if in_int64 z then Ok z else Raise OverflowError.

(** [int(o)] for one cell of an [object] column, stored as [int64]. *)
Definition obj_to_int (o : obj) : result Z :=
  match o with
  | OStr s =>
      match py_int rt s with
      | Some z => fit_int64 z
      | None => Raise ValueError
      end
  | OInt z => fit_int64 z
  | OFloat x =>
      match trunc x with
      | Some z => fit_int64 z
      | None => if is_nan x then Raise ValueError else Raise OverflowError
      end
  | OBool b => Ok (if b then 1 else 0)%Z
  end.

(** [.astype('int')]: a [float64] column with a NaN or an infinity raises. *)
Definition astype_int (c : column) : result column :=
  match c with
  | ColInt xs => Ok (ColInt xs)
  | ColFloat xs =>
      if forallb is_finite xs then Ok (ColInt (map float_to_int64 xs))
      else Raise ValueError
  | ColBool xs => Ok (ColInt (map (fun b : bool => if b then 1 else 0)%Z xs))
  | ColObj xs => ys <- mapM obj_to_int xs ;; Ok (ColInt ys)
  end.

Definition fix_year (data : frame) : result frame :=
  c <- get year_col data ;;
  c' <- astype_int c ;;
  Ok (set year_col c' data).

(** *** The stage between reading and writing (lines 62-114) *)
Definition transform (raw : frame) : result frame :=
  let data := normalise_columns raw in
  data <- drop dropped_cols data ;;
  data <- clamp_all pct_cols data ;;
  data <- fix_density data ;;
  data_imputed <- impute_missing data ;;
  fix_year data_imputed.

(** *** The stage, with the files it reads and writes

    A store maps a path to the table kept there. *)
Definition store : Type := string -> option frame.

Definition write (path : string) (data : frame) (fs : store) : store :=
  fun p => if String.eqb p path then Some data else fs p.

Definition read_csv (path : string) (fs : store) : result frame :=
  match fs path with
  | Some data => Ok data
  | None => Raise (FileNotFoundError path)
  end.

Definition clean_data (data_path : string) (fs : store) : result unit * store :=
  match read_csv data_path fs with
  | Raise e => (Raise e, fs)
  | Ok raw =>
      match transform raw with
      | Raise e => (Raise e, fs)
      | Ok data_imputed => (Ok tt, write clean_path data_imputed fs)
      end
  end.

End WithRuntime.

(** *** Notions the properties are stated with *)

(** What a step that rewrites cells in place keeps: the row count, the
    labels in their order, and one cell per row in every column. *)
Definition same_shape (d d' : frame) : Prop :=
  nrows d' = nrows d /\ names d' = names d /\ (rectangular d -> rectangular d').

(** The table of line 82: the normalised header without the two pruned
    columns. *)
Definition kept (raw : frame) : frame :=
  mkFrame (nrows raw)
    (filter (fun lc => negb (mem (fst lc) dropped_cols))
            (cols (normalise_columns raw))).

(** The cells of a column as Python scalars. *)
Definition cells (c : column) : list obj :=
  match c with
  | ColInt xs => map OInt xs
  | ColFloat xs => map OFloat xs
  | ColBool xs => map OBool xs
  | ColObj xs => xs
  end.

(** The numeric columns of [d] after [fit_transform], when no column is
    left out: column [j] keeps its label and its observed cells. *)
Definition imputed_numerics (rt : runtime) (d : frame) : list (string * column) :=
  let nums := cols (select_dtypes is_number d) in
  let m := map (fun lc => to_float64 (snd lc)) nums in
  map (fun jlc =>
         (fst (snd jlc),
          ColFloat (impute_column rt m (fst jlc) (to_float64 (snd (snd jlc))))))
      (combine (seq 0 (List.length nums)) nums).

End Clean.

(** ** A reference runtime

    Plain decimal literals ([12.5], [-3], [+0.25]) read as Python reads
    them, and for the imputer the mean of the observed values of the column:
    what [KNNImputer(n_neighbors=15)] returns on a frame of at most fifteen
    rows whose rows all share an observed coordinate, where every donor is a
    neighbour. *)
Module Ref.

Import F64 Frame.

Definition digit (c : ascii) : option Z :=
  if Norm.between 48 57 c then Some (Z.of_N (Norm.code c) - 48)%Z else None.

Fixpoint digits_from (acc : Z) (s : list ascii) : option Z :=
  match s with
  | [] => Some acc
  | c :: r =>
      match digit c with
      | Some d => digits_from (10 * acc + d)%Z r
      | None => None
      end
  end.

Fixpoint split_dot (s : list ascii) : list ascii * option (list ascii) :=
  match s with
  | [] => ([], None)
  | c :: r =>
      if Ascii.eqb c "." then ([], Some r)
      else let (a, b) := split_dot r in (c :: a, b)
  end.

(** [m / 10^k], correctly rounded. *)
Definition scaled (m : Z) (k : nat) : float :=
  match m with
  | Zpos p =>
      match (10 ^ Z.of_nat k)%Z with
      | Zpos q => SFdiv prec emax (S754_finite false p 0) (S754_finite false q 0)
      | _ => nan
      end
  | _ => S754_zero false
  end.

Definition unsigned_float (s : list ascii) : option float :=
  match split_dot s with
  | (ip, None) =>
      match ip with
      | [] => None
      | _ => option_map of_Z (digits_from 0 ip)
      end
  | (ip, Some fp) =>
      match ip ++ fp with
      | [] => None
      | ds => option_map (fun m => scaled m (List.length fp)) (digits_from 0 ds)
      end
  end.

Definition signed {A : Type} (neg : A -> A) (f : list ascii -> option A)
  (s : list ascii) : option A :=
  match s with
  | c :: r =>
      if Ascii.eqb c "-" then option_map neg (f r)
      else if Ascii.eqb c "+" then f r
      else f s
  | [] => None
  end.

Definition py_float (s : string) : option float :=
  signed SFopp unsigned_float (list_ascii_of_string s).

Definition unsigned_int (s : list ascii) : option Z :=
  match s with
  | [] => None
  | _ => digits_from 0 s
  end.

Definition py_int (s : string) : option Z :=
  signed Z.opp unsigned_int (list_ascii_of_string s).

Definition column_mean (m : list (list float)) (j : nat) (i : nat) : float :=
  let observed := filter (fun x => negb (is_nan x)) (nth j m []) in
  div (fold_left add observed (of_Z 0))
      (of_Z (Z.of_nat (List.length observed))).

Definition runtime : Clean.runtime :=
  Clean.mkRuntime py_float py_int column_mean.

(** The number a decimal literal denotes. *)
Definition num (s : string) : float :=
  match py_float s with
  | Some x => x
  | None => nan
  end.

End Ref.

(** ** Sample tables *)
Module Sample.

Import F64 Frame.
Local Open Scope string_scope.
Local Open Scope Z_scope.

Definition raw_path : string := "/opt/airflow/data_raw.csv".

(** Three rows under the headers of the source table. *)
Definition raw : frame := mkFrame 3
  [ ("Year", ColInt [2000; 2001; 2002]);
    ("Entity", ColObj [OStr "Indonesia"; OFloat nan; OStr "Chad"]);
    ("Access to electricity (% of population)",
       ColFloat [Ref.num "150"; Ref.num "100"; Ref.num "45"]);
    ("Access to clean fuels for cooking",
       ColFloat [Ref.num "6.2"; nan; Ref.num "-5"]);
    ("Financial flows to developing countries (US $)",
       ColFloat [nan; nan; Ref.num "20000"]);
    ("Renewable energy share in the total final energy consumption (%)",
       ColFloat [Ref.num "44.99"; Ref.num "45.6"; Ref.num "37.83"]);
    ("Low-carbon electricity (% electricity)", ColInt [65; 101; 84]);
    ("Renewables (% equivalent primary energy)", ColFloat [nan; nan; nan]);
    ("gdp_growth", ColFloat [Ref.num "4.92"; Ref.num "-13.1"; Ref.num "250"]);
    ("Density\n(P/Km2)", ColObj [OStr "12,5"; OStr "60"; OFloat nan]) ].

(** The same headers without the year. *)
Definition raw_without_year : frame :=
  mkFrame (nrows raw) (tl (cols raw)).

(** The same headers and no row. *)
Definition raw_without_rows : frame :=
  mkFrame 0 (map (fun lc => (fst lc, ColObj [])) (cols raw)).

(** One integer column that [float64] cannot hold exactly. *)
Definition big_int : frame := mkFrame 1 [ ("count", ColInt [9007199254740993]) ].

(** [raw] with such a column beside the others. *)
Definition raw_counts : frame :=
  mkFrame (nrows raw)
    (cols raw ++ [ ("Count", ColInt [9007199254740993; 1; 2]) ]).

(** One density cell, as the stage finds it at line 92. *)
Definition density_cell : frame := mkFrame 1 [ ("density_n", ColObj [OStr "12,5"]) ].

(** [raw] at line 86, after the header is normalised and pruned. *)
Definition pruned : frame := mkFrame 3
  [ ("year", ColInt [2000; 2001; 2002]);
    ("entity", ColObj [OStr "Indonesia"; OFloat nan; OStr "Chad"]);
    ("access_to_electricity",
       ColFloat [Ref.num "150"; Ref.num "100"; Ref.num "45"]);
    ("access_to_clean_fuels_for_cooking",
       ColFloat [Ref.num "6.2"; nan; Ref.num "-5"]);
    ("renewable_energy_share_in_the_total_final_energy_consumption",
       ColFloat [Ref.num "44.99"; Ref.num "45.6"; Ref.num "37.83"]);
    ("low_carbon_electricity", ColInt [65; 101; 84]);
    ("gdp_growth", ColFloat [Ref.num "4.92"; Ref.num "-13.1"; Ref.num "250"]);
    ("density_n", ColObj [OStr "12,5"; OStr "60"; OFloat nan]) ].

(** [raw] at line 92, after the clamp. *)
Definition clamped : frame := mkFrame 3
  [ ("year", ColInt [2000; 2001; 2002]);
    ("entity", ColObj [OStr "Indonesia"; OFloat nan; OStr "Chad"]);
    ("access_to_electricity",
       ColFloat [Ref.num "100"; Ref.num "100"; Ref.num "45"]);
    ("access_to_clean_fuels_for_cooking",
       ColFloat [Ref.num "6.2"; nan; Ref.num "-5"]);
    ("renewable_energy_share_in_the_total_final_energy_consumption",
       ColFloat [Ref.num "44.99"; Ref.num "45.6"; Ref.num "37.83"]);
    ("low_carbon_electricity", ColInt [65; 100; 84]);
    ("gdp_growth", ColFloat [Ref.num "4.92"; Ref.num "-13.1"; Ref.num "250"]);
    ("density_n", ColObj [OStr "12,5"; OStr "60"; OFloat nan]) ].

(** [raw] at line 98, after the clamp and the density repair. *)
Definition repaired : frame := mkFrame 3
  [ ("year", ColInt [2000; 2001; 2002]);
    ("entity", ColObj [OStr "Indonesia"; OFloat nan; OStr "Chad"]);
    ("access_to_electricity",
       ColFloat [Ref.num "100"; Ref.num "100"; Ref.num "45"]);
    ("access_to_clean_fuels_for_cooking",
       ColFloat [Ref.num "6.2"; nan; Ref.num "-5"]);
    ("renewable_energy_share_in_the_total_final_energy_consumption",
       ColFloat [Ref.num "44.99"; Ref.num "45.6"; Ref.num "37.83"]);
    ("low_carbon_electricity", ColInt [65; 100; 84]);
    ("gdp_growth", ColFloat [Ref.num "4.92"; Ref.num "-13.1"; Ref.num "250"]);
    ("density_n", ColObj [OStr "12.5"; OStr "60"; OFloat nan]) ].

(** [raw] at line 107, after the KNN imputation. *)
Definition imputed : frame := mkFrame 3
  [ ("entity", ColObj [OStr "Indonesia"; OFloat nan; OStr "Chad"]);
    ("density_n", ColObj [OStr "12.5"; OStr "60"; OFloat nan]);
    ("year", ColFloat [Ref.num "2000"; Ref.num "2001"; Ref.num "2002"]);
    ("access_to_electricity",
       ColFloat [Ref.num "100"; Ref.num "100"; Ref.num "45"]);
    ("access_to_clean_fuels_for_cooking",
       ColFloat [Ref.num "6.2";
                 div (add (Ref.num "6.2") (Ref.num "-5")) (Ref.num "2");
                 Ref.num "-5"]);
    ("renewable_energy_share_in_the_total_final_energy_consumption",
       ColFloat [Ref.num "44.99"; Ref.num "45.6"; Ref.num "37.83"]);
    ("low_carbon_electricity",
       ColFloat [Ref.num "65"; Ref.num "100"; Ref.num "84"]);
    ("gdp_growth", ColFloat [Ref.num "4.92"; Ref.num "-13.1"; Ref.num "250"]) ].

(** [raw] at line 112, after the fill of line 110. *)
Definition filled : frame := mkFrame 3
  [ ("entity", ColObj [OStr "Indonesia"; OFloat (Ref.num "36.25"); OStr "Chad"]);
    ("density_n", ColObj [OStr "12.5"; OStr "60"; OFloat (Ref.num "36.25")]);
    ("year", ColFloat [Ref.num "2000"; Ref.num "2001"; Ref.num "2002"]);
    ("access_to_electricity",
       ColFloat [Ref.num "100"; Ref.num "100"; Ref.num "45"]);
    ("access_to_clean_fuels_for_cooking",
       ColFloat [Ref.num "6.2";
                 div (add (Ref.num "6.2") (Ref.num "-5")) (Ref.num "2");
                 Ref.num "-5"]);
    ("renewable_energy_share_in_the_total_final_energy_consumption",
       ColFloat [Ref.num "44.99"; Ref.num "45.6"; Ref.num "37.83"]);
    ("low_carbon_electricity",
       ColFloat [Ref.num "65"; Ref.num "100"; Ref.num "84"]);
    ("gdp_growth", ColFloat [Ref.num "4.92"; Ref.num "-13.1"; Ref.num "250"]) ].

(** What the stage writes for [raw]. *)
Definition cleaned : frame := mkFrame 3
  [ ("entity", ColObj [OStr "Indonesia"; OFloat (Ref.num "36.25"); OStr "Chad"]);
    ("density_n", ColObj [OStr "12.5"; OStr "60"; OFloat (Ref.num "36.25")]);
    ("year", ColInt [2000; 2001; 2002]);
    ("access_to_electricity",
       ColFloat [Ref.num "100"; Ref.num "100"; Ref.num "45"]);
    ("access_to_clean_fuels_for_cooking",
       ColFloat [Ref.num "6.2";
                 div (add (Ref.num "6.2") (Ref.num "-5")) (Ref.num "2");
                 Ref.num "-5"]);
    ("renewable_energy_share_in_the_total_final_energy_consumption",
       ColFloat [Ref.num "44.99"; Ref.num "45.6"; Ref.num "37.83"]);
    ("low_carbon_electricity",
       ColFloat [Ref.num "65"; Ref.num "100"; Ref.num "84"]);
    ("gdp_growth", ColFloat [Ref.num "4.92"; Ref.num "-13.1"; Ref.num "250"]) ].

(** [raw] with the densities written with a point, so that the column is
    read as numbers. *)
Definition raw_dotted : frame :=
  mkFrame (nrows raw)
    (removelast (cols raw)
     ++ [ ("Density\n(P/Km2)", ColFloat [Ref.num "12.5"; Ref.num "60"; nan]) ]).

(** [raw] with a density that is no number. *)
Definition raw_unknown : frame :=
  mkFrame (nrows raw)
    (removelast (cols raw)
     ++ [ ("Density\n(P/Km2)", ColObj [OStr "12,5"; OStr "unknown"; OFloat nan]) ]).


(** [raw] with a numeric column that has no observed value. *)
Definition raw_blank : frame :=
  mkFrame (nrows raw)
    (cols raw ++ [ ("Latitude", ColFloat [nan; nan; nan]) ]).

(** [cleaned] as [pd.read_csv] reads it back from the file: the densities,
    written as text, come back as numbers, the filled entity cell as text. *)
Definition reloaded : frame := mkFrame 3
  [ ("entity", ColObj [OStr "Indonesia"; OStr "36.25"; OStr "Chad"]);
    ("density_n", ColFloat [Ref.num "12.5"; Ref.num "60"; Ref.num "36.25"]);
    ("year", ColInt [2000; 2001; 2002]);
    ("access_to_electricity",
       ColFloat [Ref.num "100"; Ref.num "100"; Ref.num "45"]);
    ("access_to_clean_fuels_for_cooking",
       ColFloat [Ref.num "6.2";
                 div (add (Ref.num "6.2") (Ref.num "-5")) (Ref.num "2");
                 Ref.num "-5"]);
    ("renewable_energy_share_in_the_total_final_energy_consumption",
       ColFloat [Ref.num "44.99"; Ref.num "45.6"; Ref.num "37.83"]);
    ("low_carbon_electricity",
       ColFloat [Ref.num "65"; Ref.num "100"; Ref.num "84"]);
    ("gdp_growth", ColFloat [Ref.num "4.92"; Ref.num "-13.1"; Ref.num "250"]) ].

Definition clean_disk : Clean.store :=
  fun p => if String.eqb p Clean.clean_path then Some reloaded else None.

(** A runtime that also reads the literal [NAN], as Python's [float]
    does. *)
Definition nan_runtime : Clean.runtime :=
  Clean.mkRuntime
    (fun s => if String.eqb s "NAN" then Some nan else Ref.py_float s)
    Ref.py_int Ref.column_mean.

(** A table at line 98 whose density strings denote no number. *)
Definition unmeasured : frame := mkFrame 2
  [ ("year", ColInt [2000; 2001]);
    ("entity", ColObj [OStr "Chad"; OFloat nan]);
    ("density_n", ColObj [OStr "NAN"; OFloat nan]) ].

Definition unmeasured_imputed : frame := mkFrame 2
  [ ("entity", ColObj [OStr "Chad"; OFloat nan]);
    ("density_n", ColObj [OStr "NAN"; OFloat nan]);
    ("year", ColFloat [Ref.num "2000"; Ref.num "2001"]) ].

(** A table of numbers only: the year and one float column. *)
Definition imputed_numbers : frame := mkFrame 3
  [ ("year", ColInt [2000; 2001; 2002]);
    ("gdp_growth", ColFloat [Ref.num "4.92"; Ref.num "-13.1"; Ref.num "250"]) ].

Definition disk (data : frame) : Clean.store :=
  fun p => if String.eqb p raw_path then Some data else None.

End Sample.

(** ** The stage [post_to_elasticsearch] (lines 123-146) *)
Module Load.

Import F64 Frame.

(** The dtype of [data.values], which [iterrows] slices its rows from:
    integers alone stay integers, integers and floats become floats,
    booleans alone stay booleans, any other mix is an array of objects. *)
Definition common_dtype (ts : list dtype) : dtype :=
  if forallb (fun t => match t with Int64 => true | _ => false end) ts
  then Int64
  else if forallb (fun t => match t with Int64 | Float64 => true | _ => false end) ts
  then Float64
  else if forallb (fun t => match t with Boolean => true | _ => false end) ts
  then Boolean
  else Object.

(** The cells of a column as the values of the rows, under the dtype
    [common] of the whole table. *)
Definition row_values (common : dtype) (c : column) : list obj :=
  match c with
  | ColInt zs =>
      match common with
      | Float64 => map (fun z => OFloat (of_Z z)) zs
      | _ => map OInt zs
      end
  | ColFloat xs => map OFloat xs
  | ColBool bs => map OBool bs
  | ColObj os => os
  end.

(** A Python [dict] with string keys, in insertion order. *)
Definition dict : Type := list (string * obj).

Fixpoint dict_get (k : string) (d : dict) : option obj :=
  match d with
  | [] => None
  | (k', v) :: r => if String.eqb k' k then Some v else dict_get k r
  end.

(** [d[k] = v]: a key the dict has keeps its place. *)
Fixpoint dict_set (k : string) (v : obj) (d : dict) : dict :=
  match d with
  | [] => [(k, v)]
  | (k', v') :: r =>
      if String.eqb k' k then (k, v) :: r else (k', v') :: dict_set k v r
  end.

(** [row.to_dict()] for the row given by its labels and values. *)
Definition to_dict (row : list (string * obj)) : dict :=
  fold_left (fun d kv => dict_set (fst kv) (snd kv) d) row [].

Definition table_dtype (data : frame) : dtype :=
  common_dtype (map (fun lc => dtype_of (snd lc)) (cols data)).

(** Row [i] of [data.iterrows()]: one value per column, under the labels. *)
Definition row_at (data : frame) (i : nat) : list (string * obj) :=
  let common := table_dtype data in
  map (fun lc => (fst lc, nth i (row_values common (snd lc)) (OFloat nan)))
      (cols data).

Record action : Type := mkAction {
  _index : string;
  _source : dict
}.

(** The list comprehension of lines 139-145. *)
Definition actions (data : frame) (index_name : string) : list action :=
  map (fun i => mkAction index_name (to_dict (row_at data i)))
      (seq 0 (nrows data)).

(** The stage up to its call of [helpers.bulk]: the actions it hands to the
    client. *)
Definition post_to_elasticsearch (data_path index_name : string)
  (fs : Clean.store) : result (list action) :=
  data <- Clean.read_csv data_path fs ;;
  Ok (actions data index_name).

End Load.

(** ** Notions the further properties are stated with *)
Module Notions.

Import F64 Frame.

(** A column without a missing cell. *)
Definition no_gap (c : column) : bool :=
  match c with
  | ColFloat xs => forallb (fun x => negb (is_nan x)) xs
  | ColObj os => forallb (fun o => negb (is_missing o)) os
  | _ => true
  end.


(** Row by row, whether the cell of a column is missing. *)
Definition gaps (c : column) : list bool := map is_missing (Clean.cells c).

Definition chars (s : string) : list ascii := list_ascii_of_string s.

End Notions.

(** * Properties *)

(** ** The normalisation of column names *)
Module NormFacts.

Import Norm.

Ltac char_cases c :=
  destruct c as [[] [] [] [] [] [] [] []]; vm_compute;
  try reflexivity; try discriminate; auto.

Lemma word_not_upper (c : ascii) : word_char c = true -> is_upper c = false.
Proof. char_cases c. Qed.

Lemma word_not_open (c : ascii) : word_char c = true -> is_open c = false.
Proof. char_cases c. Qed.

Lemma word_not_sep (c : ascii) : word_char c = true -> is_sep c = false.
Proof. char_cases c. Qed.

Lemma not_sep_blank_is_word (c : ascii) :
  is_sep (if word_char c then c else " "%char) = false ->
  word_char (if word_char c then c else " "%char) = true.
Proof. char_cases c. Qed.

Lemma lower_word (s : list ascii) :
  forallb word_char s = true -> lower s = s.
Proof.
  induction s as [|c r IH]; simpl; intro H; [reflexivity|].
  apply andb_prop in H as [Hc Hr].
  unfold lower_char. rewrite (word_not_upper c Hc). f_equal. now apply IH.
Qed.

Lemma sub_parens_word (s : list ascii) :
  forallb word_char s = true -> sub_parens s = s.
Proof.
  unfold sub_parens.
  induction s as [|c r IH]; simpl; intro H; [reflexivity|].
  apply andb_prop in H as [Hc Hr].
  rewrite (word_not_open c Hc). simpl. f_equal. now apply IH.
Qed.

Lemma sub_non_word_word (s : list ascii) :
  forallb word_char s = true -> sub_non_word s = s.
Proof.
  unfold sub_non_word.
  induction s as [|c r IH]; simpl; intro H; [reflexivity|].
  apply andb_prop in H as [Hc Hr].
  rewrite Hc. f_equal. now apply IH.
Qed.

Lemma sub_seps_word (b : bool) (s : list ascii) :
  forallb word_char s = true -> sub_seps_from b s = s.
Proof.
  revert b.
  induction s as [|c r IH]; simpl; intros b H; [reflexivity|].
  apply andb_prop in H as [Hc Hr].
  rewrite (word_not_sep c Hc). f_equal. now apply IH.
Qed.

(** A name in normal form is a fixed point of the loop body. *)
Lemma normalise_chars_fixes (s : list ascii) :
  normal_form s -> normalise_chars s = s.
Proof.
  intros (Hw & Hl & Hr). unfold normalise_chars, strip.
  rewrite (lower_word s Hw), (sub_parens_word s Hw), (sub_non_word_word s Hw).
  unfold sub_seps. rewrite (sub_seps_word false s Hw).
  now rewrite Hl.
Qed.

Lemma sub_seps_blank_words (b : bool) (s : list ascii) :
  forallb word_char (sub_seps_from b (sub_non_word s)) = true.
Proof.
  revert b. unfold sub_non_word.
  induction s as [|c r IH]; simpl; intro b; [reflexivity|].
  destruct (is_sep (if word_char c then c else " "%char)) eqn:Hs.
  - destruct b; simpl; auto.
  - simpl. rewrite (not_sep_blank_is_word c Hs). simpl. apply IH.
Qed.

Lemma lstrip_words (s : list ascii) :
  forallb word_char s = true -> forallb word_char (lstrip s) = true.
Proof.
  induction s as [|c r IH]; simpl; intro H; [reflexivity|].
  apply andb_prop in H as [Hc Hr].
  destruct (is_us c); [now apply IH|]. simpl. now rewrite Hc, Hr.
Qed.

Lemma rstrip_words (s : list ascii) :
  forallb word_char s = true -> forallb word_char (rstrip s) = true.
Proof.
  induction s as [|c r IH]; simpl; intro H; [reflexivity|].
  apply andb_prop in H as [Hc Hr]. specialize (IH Hr).
  destruct (rstrip r) as [|d r'].
  - destruct (is_us c); simpl; [reflexivity|now rewrite Hc].
  - simpl in *. now rewrite Hc, IH.
Qed.

Lemma lstrip_head (s : list ascii) :
  lstrip s = [] \/ exists c r, lstrip s = c :: r /\ is_us c = false.
Proof.
  induction s as [|c r IH]; simpl; [now left|].
  destruct (is_us c) eqn:Hc; [exact IH|].
  right. now exists c, r.
Qed.

Lemma rstrip_idempotent (s : list ascii) : rstrip (rstrip s) = rstrip s.
Proof.
  induction s as [|c r IH]; simpl; [reflexivity|].
  destruct (rstrip r) as [|d r'] eqn:Hr.
  - destruct (is_us c) eqn:Hc; simpl; [reflexivity|now rewrite Hc].
  - change (rstrip (c :: d :: r') = c :: d :: r').
    change (rstrip (c :: d :: r')) with
      (match rstrip (d :: r') with
       | [] => if is_us c then [] else [c]
       | x => c :: x
       end).
    now rewrite IH.
Qed.

Lemma lstrip_rstrip_lstrip (s : list ascii) :
  lstrip (rstrip (lstrip s)) = rstrip (lstrip s).
Proof.
  destruct (lstrip_head s) as [H | (c & r & H & Hc)]; rewrite H; [reflexivity|].
  simpl. destruct (rstrip r); simpl; rewrite ?Hc; simpl; rewrite ?Hc; reflexivity.
Qed.

(** The loop body always produces a name in normal form. *)
Lemma normalise_chars_normal (s : list ascii) :
  normal_form (normalise_chars s).
Proof.
  unfold normal_form, normalise_chars, strip, sub_seps.
  repeat split.
  - apply rstrip_words, lstrip_words, sub_seps_blank_words.
  - apply lstrip_rstrip_lstrip.
  - apply rstrip_idempotent.
Qed.

Lemma normalise_chars_idempotent (s : list ascii) :
  normalise_chars (normalise_chars s) = normalise_chars s.
Proof. apply normalise_chars_fixes, normalise_chars_normal. Qed.

End NormFacts.

(** ** Integers in binary64 *)
Module F64Facts.

Import F64.
Local Open Scope Z_scope.

Lemma digits2_pos_lower (p : positive) : 2 ^ (Zpos (digits2_pos p) - 1) <= Zpos p.
Proof.
  induction p as [p IH|p IH|]; simpl digits2_pos.
  - rewrite Pos2Z.inj_succ. replace (Z.succ (Zpos (digits2_pos p)) - 1) with (Z.succ (Zpos (digits2_pos p) - 1)) by lia.
    rewrite Z.pow_succ_r by lia. lia.
  - rewrite Pos2Z.inj_succ. replace (Z.succ (Zpos (digits2_pos p)) - 1) with (Z.succ (Zpos (digits2_pos p) - 1)) by lia.
    rewrite Z.pow_succ_r by lia. lia.
  - simpl. lia.
Qed.

Lemma digits2_pos_le_53 (p : positive) : Zpos p < 2 ^ 53 -> Zpos (digits2_pos p) <= 53.
Proof.
  intro H. pose proof (digits2_pos_lower p) as L.
  assert (2 ^ (Zpos (digits2_pos p) - 1) < 2 ^ 53) as H' by lia.
  apply Z.pow_lt_mono_r_iff in H'; lia.
Qed.

Lemma digits2_pos_iter (p : positive) (k : positive) :
  Zpos (digits2_pos (Pos.iter xO p k)) = Zpos (digits2_pos p) + Zpos k.
Proof.
  induction k as [|k IH] using Pos.peano_ind.
  - simpl. lia.
  - rewrite Pos.iter_succ. simpl digits2_pos. rewrite Pos2Z.inj_succ, IH. lia.
Qed.

Lemma iter_xO_value (p k : positive) : Zpos (Pos.iter xO p k) = Zpos p * 2 ^ Zpos k.
Proof.
  induction k as [|k IH] using Pos.peano_ind.
  - simpl. lia.
  - rewrite Pos.iter_succ, Pos2Z.inj_xO, IH, Pos2Z.inj_succ, Z.pow_succ_r by lia. lia.
Qed.

Lemma shr_fexp_exact (m : positive) (e : Z) :
  Zpos (digits2_pos m) = 53 -> -1074 <= e ->
  shr_fexp prec emax (Zpos m) e loc_Exact
  = (Build_shr_record (Zpos m) false false, e).
Proof.
  intros Hd He. unfold shr_fexp. simpl Zdigits2.
  replace (fexp prec emax (Zpos (digits2_pos m) + e) - e) with 0; [reflexivity|].
  unfold fexp, emin, prec, emax. rewrite Hd. lia.
Qed.

Lemma round_aux_exact (s : bool) (m : positive) (e : Z) :
  Zpos (digits2_pos m) = 53 -> -1074 <= e <= 971 ->
  binary_round_aux prec emax s (Zpos m) e loc_Exact = S754_finite s m e.
Proof.
  intros Hd He. unfold binary_round_aux.
  rewrite (shr_fexp_exact m e Hd) by lia.
  cbn [shr_m loc_of_shr_record round_nearest_even].
  rewrite (shr_fexp_exact m e Hd) by lia.
  cbn [shr_m].
  destruct (Z.leb_spec e (emax - prec)) as [_|H]; [reflexivity|].
  unfold emax, prec in H. lia.
Qed.

Lemma of_pos_exact (s : bool) (p : positive) :
  Zpos p < 2 ^ 53 ->
  exact_int (binary_round prec emax s p 0) = Some (cond_Zopp s (Zpos p)).
Proof.
  intro H. pose proof (digits2_pos_le_53 p H) as Hd.
  pose proof (Pos2Z.is_pos (digits2_pos p)) as Hd0.
  unfold binary_round, shl_align.
  assert (fexp prec emax (Zpos (digits2_pos p) + 0) = Zpos (digits2_pos p) - 53) as ->.
  { unfold fexp, emin, prec, emax. lia. }
  destruct (Zpos (digits2_pos p) - 53 - 0) as [|k|k] eqn:Ek; try lia.
  - rewrite round_aux_exact by lia. reflexivity.
  - rewrite round_aux_exact.
    + replace (Zpos (digits2_pos p) - 53) with (Zneg k) by lia.
      unfold exact_int. rewrite iter_xO_value.
      rewrite Z.mod_mul, Z.eqb_refl, Z.div_mul by (apply Z.pow_nonzero; lia).
      reflexivity.
    + rewrite digits2_pos_iter. lia.
    + lia.
Qed.

Lemma of_Z_exact (z : Z) : Z.abs z <= 2 ^ 53 -> exact_int (of_Z z) = Some z.
Proof.
  intro H. destruct (Z.eq_dec (Z.abs z) (2 ^ 53)) as [E|E].
  - destruct z as [|p|p]; simpl in E; try discriminate E.
    + injection E as ->. reflexivity.
    + injection E as ->. reflexivity.
  - destruct z as [|p|p]; [reflexivity| |];
      unfold of_Z, binary_normalize; rewrite of_pos_exact; simpl in *; try reflexivity; lia.
Qed.

(** The conversion of an integer is never NaN. *)
Lemma shr_1_nonneg (r : shr_record) : 0 <= shr_m r -> 0 <= shr_m (shr_1 r).
Proof.
  destruct r as [m r s]. simpl. destruct m as [|p|p]; [| |lia]; intros _.
  - simpl. lia.
  - destruct p; simpl; lia.
Qed.

Lemma iter_shr_nonneg (p : positive) (r : shr_record) :
  0 <= shr_m r -> 0 <= shr_m (iter_pos shr_1 p r).
Proof.
  revert r. induction p as [p IH|p IH|]; intros r H; simpl.
  - apply IH, IH, shr_1_nonneg, H.
  - apply IH, IH, H.
  - apply shr_1_nonneg, H.
Qed.

Lemma shr_fexp_nonneg (m e : Z) (l : location) :
  0 <= m -> 0 <= shr_m (fst (shr_fexp prec emax m e l)).
Proof.
  intro H. unfold shr_fexp, shr.
  assert (0 <= shr_m (shr_record_of_loc m l)) as H0
    by (destruct l as [|[| |]]; exact H).
  destruct (fexp prec emax (Zdigits2 m + e) - e); simpl; auto.
  now apply iter_shr_nonneg.
Qed.

Lemma round_nearest_even_nonneg (m : Z) (l : location) :
  0 <= m -> 0 <= round_nearest_even m l.
Proof.
  intro H. destruct l as [|[| |]]; simpl; try lia. destruct (Z.even m); lia.
Qed.

Lemma round_aux_not_nan (s : bool) (m e : Z) (l : location) :
  0 <= m -> is_nan (binary_round_aux prec emax s m e l) = false.
Proof.
  intro H. unfold binary_round_aux.
  pose proof (shr_fexp_nonneg m e l H) as H1.
  destruct (shr_fexp prec emax m e l) as [r1 e1]. simpl in H1.
  pose proof (shr_fexp_nonneg _ e1 loc_Exact
                (round_nearest_even_nonneg _ (loc_of_shr_record r1) H1)) as H2.
  destruct (shr_fexp prec emax _ e1 loc_Exact) as [r2 e2]. simpl in H2.
  destruct (shr_m r2) as [|p|p]; [reflexivity| |lia].
  destruct (e2 <=? emax - prec); reflexivity.
Qed.

Lemma of_Z_not_nan (z : Z) : is_nan (of_Z z) = false.
Proof.
  unfold of_Z, binary_normalize. destruct z as [|p|p]; [reflexivity| |];
    unfold binary_round; destruct (shl_align _ _ _) as [mz ez];
    apply round_aux_not_nan; lia.
Qed.

End F64Facts.

(** ** Results *)
Module ResultFacts.

Lemma bind_ok {A B : Type} (r : result A) (k : A -> result B) (b : B) :
  bind r k = Ok b -> exists a, r = Ok a /\ k a = Ok b.
Proof. destruct r as [a|e]; simpl; intro H; [now exists a|discriminate]. Qed.

Lemma mapM_ok {A B : Type} (f : A -> result B) (l : list A) (l' : list B) :
  mapM f l = Ok l' -> Forall2 (fun a b => f a = Ok b) l l'.
Proof.
  revert l'. induction l as [|a r IH]; simpl; intros l' H.
  - injection H as <-. constructor.
  - apply bind_ok in H as (b & Hb & H).
    apply bind_ok in H as (bs & Hbs & H).
    injection H as <-. constructor; auto.
Qed.

Lemma mapM_length {A B : Type} (f : A -> result B) (l : list A) (l' : list B) :
  mapM f l = Ok l' -> List.length l' = List.length l.
Proof. intro H. symmetry. exact (Forall2_length (mapM_ok f l l' H)). Qed.

Lemma mapM_total {A B : Type} (f : A -> result B) (g : A -> B) (l : list A) :
  (forall a, In a l -> f a = Ok (g a)) -> mapM f l = Ok (map g l).
Proof.
  induction l as [|a r IH]; simpl; intro H; [reflexivity|].
  rewrite (H a (or_introl eq_refl)). simpl.
  rewrite IH by (intros; apply H; now right). reflexivity.
Qed.

End ResultFacts.

(** ** Frames *)
Module FrameFacts.

Import Frame ResultFacts.

Ltac inv_bind H :=
  let a := fresh "x" in
  let Ha := fresh "E" in
  apply bind_ok in H as (a & Ha & H).

Lemma mem_In (l : string) (ls : list string) : mem l ls = true <-> In l ls.
Proof.
  unfold mem. rewrite existsb_exists. split.
  - intros (x & Hx & E). apply String.eqb_eq in E. now subst.
  - intro H. exists l. split; [exact H|apply String.eqb_refl].
Qed.

Lemma nodupb_NoDup (ls : list string) : nodupb ls = true -> NoDup ls.
Proof.
  induction ls as [|l r IH]; simpl; intro H; [constructor|].
  apply andb_prop in H as [H1 H2]. constructor; [|now apply IH].
  intro Hin. apply mem_In in Hin. rewrite Hin in H1. discriminate.
Qed.

Lemma rectangularb_ok (f : frame) : rectangularb f = true -> rectangular f.
Proof.
  unfold rectangularb, rectangular. rewrite forallb_forall, Forall_forall.
  intros H c Hc. now apply Nat.eqb_eq, H.
Qed.

Lemma lookup_In (l : string) (cs : list (string * column)) (c : column) :
  lookup l cs = Some c -> In (l, c) cs.
Proof.
  induction cs as [|[l0 c0] r IH]; simpl; [discriminate|].
  destruct (String.eqb l0 l) eqn:E.
  - apply String.eqb_eq in E. intro H. injection H as <-. subst. now left.
  - intro H. right. now apply IH.
Qed.

Lemma lookup_None (l : string) (cs : list (string * column)) :
  lookup l cs = None <-> ~ In l (map fst cs).
Proof.
  induction cs as [|[l0 c0] r IH]; simpl; [tauto|].
  destruct (String.eqb l0 l) eqn:E.
  - apply String.eqb_eq in E. split; [discriminate|]. intro H. exfalso. apply H. now left.
  - apply String.eqb_neq in E. rewrite IH. tauto.
Qed.

Lemma unique_lookup (l : string) (cs : list (string * column)) (c : column) :
  NoDup (map fst cs) -> In (l, c) cs -> lookup l cs = Some c.
Proof.
  induction cs as [|[l0 c0] r IH]; simpl; intros Hnd Hin; [contradiction|].
  inversion Hnd as [|? ? Hnot Hnd']; subst.
  destruct Hin as [E | Hin].
  - injection E as -> ->. now rewrite String.eqb_refl.
  - destruct (String.eqb l0 l) eqn:E.
    + apply String.eqb_eq in E. subst. exfalso. apply Hnot.
      change l with (fst (l, c)). now apply in_map.
    + now apply IH.
Qed.

Lemma get_ok (l : string) (f : frame) (c : column) :
  get l f = Ok c <-> lookup l (cols f) = Some c.
Proof.
  unfold get. destruct (lookup l (cols f)); split; intro H;
    try discriminate; now injection H as <-.
Qed.

Lemma get_names (l : string) (f : frame) (c : column) :
  get l f = Ok c -> In l (names f).
Proof.
  intro H. apply get_ok, lookup_In in H.
  change l with (fst (l, c)). now apply in_map.
Qed.

Lemma names_set (l : string) (c : column) (f : frame) :
  names (set l c f) = names f.
Proof.
  unfold names, set. simpl. rewrite map_map. apply map_ext.
  intros [l0 c0]. simpl. now destruct (String.eqb l0 l).
Qed.

Lemma lookup_set_same (l : string) (c c0 : column) (f : frame) :
  lookup l (cols f) = Some c0 -> lookup l (cols (set l c f)) = Some c.
Proof.
  unfold set. simpl. induction (cols f) as [|[l1 c1] r IH]; simpl; [discriminate|].
  destruct (String.eqb l1 l) eqn:E; simpl; rewrite E; auto.
Qed.

Lemma lookup_set_other (l l' : string) (c : column) (f : frame) :
  l' <> l -> lookup l' (cols (set l c f)) = lookup l' (cols f).
Proof.
  intro Hne. unfold set. simpl.
  induction (cols f) as [|[l1 c1] r IH]; simpl; [reflexivity|].
  destruct (String.eqb l1 l) eqn:E; simpl.
  - apply String.eqb_eq in E. subst.
    destruct (String.eqb l l') eqn:E'; [|exact IH].
    apply String.eqb_eq in E'. now subst.
  - now rewrite IH.
Qed.

Lemma rectangular_set (l : string) (c : column) (f : frame) :
  col_len c = nrows f -> rectangular f -> rectangular (set l c f).
Proof.
  unfold rectangular, set. simpl. intros Hc H.
  rewrite Forall_forall in *. intros x Hx.
  apply in_map_iff in Hx as ([l0 c0] & <- & Hin). simpl.
  destruct (String.eqb l0 l); simpl; [exact Hc|exact (H _ Hin)].
Qed.



End FrameFacts.

(** ** The steps of the stage *)
Module CleanFacts.

Import F64 Frame Clean ResultFacts FrameFacts.

Lemma same_shape_refl (d : frame) : same_shape d d.
Proof. now repeat split. Qed.

Lemma same_shape_trans (a b c : frame) :
  same_shape a b -> same_shape b c -> same_shape a c.
Proof.
  intros (N1 & L1 & R1) (N2 & L2 & R2). repeat split.
  - now rewrite N2. - now rewrite L2. - auto.
Qed.

Lemma rectangular_In (l : string) (c : column) (d : frame) :
  rectangular d -> In (l, c) (cols d) -> col_len c = nrows d.
Proof.
  unfold rectangular. rewrite Forall_forall. intros H Hin. exact (H _ Hin).
Qed.

Lemma same_shape_set (l : string) (c c' : column) (d : frame) :
  get l d = Ok c -> col_len c' = col_len c -> same_shape d (set l c' d).
Proof.
  intros Hg Hlen. repeat split; [apply names_set|].
  intro Hr. apply rectangular_set; [|exact Hr].
  rewrite Hlen. apply (rectangular_In l c d Hr).
  now apply lookup_In, get_ok.
Qed.


Lemma same_shape_unique (d d' : frame) :
  same_shape d d' -> unique_labels d -> unique_labels d'.
Proof. intros (_ & L & _) U. unfold unique_labels. now rewrite L. Qed.

(** *** The clamp *)
Lemma clamp_column_keeps (c c' : column) :
  clamp_column c = Ok c' -> dtype_of c' = dtype_of c /\ col_len c' = col_len c.
Proof.
  destruct c as [xs|xs|xs|xs]; simpl; intro H.
  - injection H as <-. simpl. now rewrite length_map.
  - injection H as <-. simpl. now rewrite length_map.
  - injection H as <-. now simpl.
  - inv_bind H. injection H as <-. simpl. split; [reflexivity|].
    exact (mapM_length _ _ _ E).
Qed.

Lemma clamp_inv (col : string) (d d' : frame) :
  clamp col d = Ok d' ->
  exists c c', get col d = Ok c /\ clamp_column c = Ok c' /\ d' = set col c' d.
Proof.
  unfold clamp. intro H. inv_bind H. inv_bind H. injection H as <-.
  now exists x, x0.
Qed.

Lemma clamp_shape (col : string) (d d' : frame) :
  clamp col d = Ok d' -> same_shape d d'.
Proof.
  intro H. apply clamp_inv in H as (c & c' & Hg & Hc & ->).
  apply (same_shape_set col c c' d Hg). now apply clamp_column_keeps.
Qed.


Lemma clamp_all_shape (labels : list string) (d d' : frame) :
  clamp_all labels d = Ok d' -> same_shape d d'.
Proof.
  revert d. induction labels as [|col rest IH]; simpl; intros d H.
  - injection H as <-. apply same_shape_refl.
  - inv_bind H. eapply same_shape_trans; [exact (clamp_shape _ _ _ E)|now apply IH].
Qed.


(** Every label of the loop is looked up in the frame. *)
Lemma clamp_all_names (labels : list string) (d d' : frame) :
  clamp_all labels d = Ok d' -> forall col, In col labels -> In col (names d).
Proof.
  revert d. induction labels as [|col rest IH]; simpl; intros d H c Hc; [contradiction|].
  inv_bind H. pose proof (clamp_shape _ _ _ E) as (_ & L & _).
  destruct Hc as [<- | Hc].
  - apply clamp_inv in E as (c0 & _ & Hg & _). exact (get_names _ _ _ Hg).
  - rewrite <- L. now apply (IH x).
Qed.

(** *** The density repair *)
Lemma str_replace_inv (c c' : column) :
  str_replace c = Ok c' ->
  exists xs, c = ColObj xs /\ c' = ColObj (map str_replace_obj xs).
Proof.
  destruct c as [xs|xs|xs|xs]; simpl; try discriminate.
  destruct (has_str_accessor xs); [|discriminate].
  intro H. injection H as <-. now exists xs.
Qed.

Lemma fix_density_inv (rt : runtime) (d d' : frame) :
  fix_density rt d = Ok d' ->
  exists xs, get density_col d = Ok (ColObj xs)
             /\ d' = set density_col (ColObj (map str_replace_obj xs)) d.
Proof.
  unfold fix_density. intro H. inv_bind H. inv_bind H.
  apply str_replace_inv in E0 as (xs & -> & ->).
  inv_bind H. inv_bind H. injection H as <-. now exists xs.
Qed.

Lemma fix_density_shape (rt : runtime) (d d' : frame) :
  fix_density rt d = Ok d' -> same_shape d d'.
Proof.
  intro H. apply fix_density_inv in H as (xs & Hg & ->).
  apply (same_shape_set _ _ _ d Hg). simpl. now rewrite length_map.
Qed.


(** After lines 92-93 the density column is still an [object] column. *)
Lemma fix_density_object (rt : runtime) (d d' : frame) :
  fix_density rt d = Ok d' ->
  exists xs, get density_col d' = Ok (ColObj xs).
Proof.
  intro H. apply fix_density_inv in H as (xs & Hg & ->).
  exists (map str_replace_obj xs). apply get_ok.
  apply get_ok in Hg. exact (lookup_set_same _ _ _ _ Hg).
Qed.

(** *** The imputation *)
Lemma astype_float_numeric (rt : runtime) (c : column) :
  is_number c = true -> astype_float rt c = Ok (to_float64 c).
Proof. destruct c; simpl; intro H; try discriminate; reflexivity. Qed.

Lemma to_float64_length (c : column) :
  is_number c = true -> List.length (to_float64 c) = col_len c.
Proof.
  destruct c; simpl; intro H; try discriminate; [apply length_map|reflexivity].
Qed.

Lemma imap_from_length {A B : Type} (f : nat -> A -> B) (l : list A) (k : nat) :
  List.length (imap_from k f l) = List.length l.
Proof. revert k. induction l; simpl; intro k; [reflexivity|now rewrite IHl]. Qed.

Lemma imap_from_fix {A : Type} (f : nat -> A -> A) (l : list A) (k : nat) :
  (forall i a, In a l -> f i a = a) -> imap_from k f l = l.
Proof.
  revert k. induction l as [|a r IH]; simpl; intros k H; [reflexivity|].
  rewrite (H k a (or_introl eq_refl)). f_equal. apply IH.
  intros i b Hb. apply H. now right.
Qed.

Lemma impute_column_length (rt : runtime) (m : list (list float)) (j : nat)
  (xs : list float) :
  List.length (impute_column rt m j xs) = List.length xs.
Proof. apply imap_from_length. Qed.

(** The imputer rewrites no observed cell. *)
Lemma impute_column_observed (rt : runtime) (m : list (list float)) (j : nat)
  (xs : list float) :
  forallb (fun x => negb (is_nan x)) xs = true -> impute_column rt m j xs = xs.
Proof.
  intro H. apply imap_from_fix. intros i a Ha.
  rewrite forallb_forall in H. specialize (H a Ha).
  destruct (is_nan a); [discriminate|reflexivity].
Qed.

Lemma filter_length_all {A : Type} (p : A -> bool) (l : list A) :
  List.length (filter p l) = List.length l -> filter p l = l.
Proof.
  induction l as [|a r IH]; simpl; [reflexivity|].
  destruct (p a); simpl; intro H.
  - f_equal. apply IH. lia.
  - pose proof (filter_length_le p r). lia.
Qed.

Lemma knn_transform_full (rt : runtime) (m : list (list float)) :
  List.length (knn_transform rt m) = List.length m ->
  knn_transform rt m
  = map (fun jc => impute_column rt m (fst jc) (snd jc))
        (combine (seq 0 (List.length m)) m).
Proof.
  unfold knn_transform. rewrite length_map. intro H.
  rewrite filter_length_all; [reflexivity|].
  rewrite H, length_combine, length_seq. lia.
Qed.

Lemma fit_transform_inv (rt : runtime) (X : frame) (vals : list (list float)) :
  (forall lc, In lc (cols X) -> is_number (snd lc) = true) ->
  fit_transform rt X = Ok vals ->
  nrows X <> 0
  /\ vals = knn_transform rt (map (fun lc => to_float64 (snd lc)) (cols X)).
Proof.
  unfold fit_transform. intros Hnum H.
  destruct (Nat.eqb (nrows X) 0) eqn:E; [discriminate|].
  apply Nat.eqb_neq in E. split; [exact E|].
  destruct (cols X) as [|lc r] eqn:Ec; [discriminate|]. rewrite <- Ec in *.
  rewrite (mapM_total _ (fun lc => to_float64 (snd lc))) in H
    by (intros a Ha; apply astype_float_numeric, Hnum, Ha).
  simpl in H.
  destruct (existsb _ _); [discriminate|]. now injection H as <-.
Qed.

Lemma data_frame_inv (vals : list (list float)) (labels : list string) (n : nat)
  (df : frame) :
  data_frame vals labels n = Ok df ->
  List.length vals = List.length labels
  /\ df = mkFrame n (combine labels (map ColFloat vals)).
Proof.
  unfold data_frame. destruct (Nat.eqb _ _) eqn:E; [|discriminate].
  apply Nat.eqb_eq in E. intro H. now injection H as <-.
Qed.

Lemma combine_imputed {A : Type} (F : nat -> list float -> list float)
  (g : string * A -> list float) (nums : list (string * A)) (k : nat) :
  combine (map fst nums)
    (map ColFloat
       (map (fun jc => F (fst jc) (snd jc))
            (combine (seq k (List.length nums)) (map g nums))))
  = map (fun jlc => (fst (snd jlc), ColFloat (F (fst jlc) (g (snd jlc)))))
        (combine (seq k (List.length nums)) nums).
Proof.
  revert k. induction nums as [|x r IH]; simpl; intro k; [reflexivity|].
  f_equal. apply IH.
Qed.

Lemma select_In (p : column -> bool) (d : frame) (lc : string * column) :
  In lc (cols (select_dtypes p d)) <-> In lc (cols d) /\ p (snd lc) = true.
Proof. unfold select_dtypes. simpl. apply filter_In. Qed.

(** The frame lines 98-107 build: the [object] columns as they are, then the
    numeric columns with their missing cells filled. *)
Lemma knn_impute_inv (rt : runtime) (d d' : frame) :
  knn_impute rt d = Ok d' ->
  nrows d <> 0 /\ nrows d' = nrows d
  /\ cols d' = cols (select_dtypes is_object d) ++ imputed_numerics rt d.
Proof.
  unfold knn_impute. intro H. inv_bind H. inv_bind H. injection H as <-.
  apply fit_transform_inv in E as [Hn ->];
    [|intros lc Hlc; now apply select_In in Hlc].
  apply data_frame_inv in E0 as [Hlen ->].
  unfold names in Hlen. rewrite length_map in Hlen.
  rewrite knn_transform_full in * by (now rewrite Hlen, length_map).
  repeat split; [exact Hn|]. unfold concat. simpl. f_equal.
  unfold imputed_numerics, names. rewrite !length_map.
  exact (combine_imputed
           (impute_column rt
              (map (fun lc => to_float64 (snd lc)) (cols (select_dtypes is_number d))))
           (fun lc => to_float64 (snd lc)) (cols (select_dtypes is_number d)) 0).
Qed.

Lemma map_fst_enumerated {A B : Type} (f : nat -> string * A -> B)
  (l : list (string * A)) (k : nat) :
  map fst (map (fun jx => (fst (snd jx), f (fst jx) (snd jx)))
               (combine (seq k (List.length l)) l))
  = map fst l.
Proof.
  revert k. induction l as [|x r IH]; simpl; intro k; [reflexivity|].
  f_equal. apply IH.
Qed.

Lemma imputed_numerics_names (rt : runtime) (d : frame) :
  map fst (imputed_numerics rt d) = names (select_dtypes is_number d).
Proof.
  unfold imputed_numerics, names.
  exact (map_fst_enumerated
           (fun j lc => ColFloat (impute_column rt _ j (to_float64 (snd lc)))) _ 0).
Qed.

Lemma In_enumerated {A : Type} (x : A) (l : list A) (k : nat) :
  In x l -> exists j, In (j, x) (combine (seq k (List.length l)) l).
Proof.
  revert k. induction l as [|a r IH]; simpl; intros k H; [contradiction|].
  destruct H as [-> | H].
  - exists k. now left.
  - destruct (IH (S k) H) as [j Hj]. exists j. now right.
Qed.

Lemma enumerated_In {A : Type} (j : nat) (x : A) (l : list A) (k : nat) :
  In (j, x) (combine (seq k (List.length l)) l) -> In x l.
Proof. intro H. exact (in_combine_r _ _ _ _ H). Qed.

Lemma imputed_numerics_rect (rt : runtime) (d : frame) :
  rectangular d ->
  Forall (fun c => col_len (snd c) = nrows d) (imputed_numerics rt d).
Proof.
  intro Hr. apply Forall_forall. intros lc Hlc.
  unfold imputed_numerics in Hlc.
  apply in_map_iff in Hlc as ([j [l c]] & <- & Hin). simpl.
  apply enumerated_In, select_In in Hin as [Hin Hnum]. simpl in Hnum.
  rewrite impute_column_length, (to_float64_length c Hnum).
  exact (rectangular_In l c d Hr Hin).
Qed.

Lemma knn_impute_names (rt : runtime) (d d' : frame) :
  knn_impute rt d = Ok d' ->
  names d' = names (select_dtypes is_object d) ++ names (select_dtypes is_number d).
Proof.
  intro H. apply knn_impute_inv in H as (_ & _ & Hc).
  unfold names at 1. rewrite Hc, map_app. now rewrite imputed_numerics_names.
Qed.

Lemma knn_impute_rect (rt : runtime) (d d' : frame) :
  knn_impute rt d = Ok d' -> rectangular d -> rectangular d'.
Proof.
  intros H Hr. apply knn_impute_inv in H as (_ & Hn & Hc).
  unfold rectangular. rewrite Hc, Hn. apply Forall_app. split.
  - apply Forall_forall. intros [l c] Hin. apply select_In in Hin as [Hin _].
    exact (rectangular_In l c d Hr Hin).
  - now apply imputed_numerics_rect.
Qed.

Lemma as_floats_length (os : list obj) (xs : list F64.float) :
  as_floats os = Some xs -> List.length xs = List.length os.
Proof.
  revert xs. induction os as [|o r IH]; simpl; intros xs H.
  - injection H as <-. reflexivity.
  - destruct (obj_as_float o); [|discriminate].
    destruct (as_floats r) as [ys|]; [|discriminate].
    injection H as <-. simpl. now rewrite (IH ys).
Qed.

Lemma convert_length (os : list obj) : col_len (convert os) = List.length os.
Proof.
  unfold convert. destruct (existsb above_int64 os && existsb negative_int os);
    [reflexivity|].
  destruct (as_floats os) as [xs|] eqn:E; simpl; [|reflexivity].
  now apply as_floats_length.
Qed.

Lemma fillna_column_keeps (v : F64.float) (c : column) :
  col_len (fillna_column v c) = col_len c.
Proof.
  destruct c as [zs|xs|bs|os]; simpl; rewrite ?length_map; try reflexivity.
  destruct (existsb is_missing os); [|reflexivity].
  now rewrite convert_length, length_map.
Qed.

Lemma fillna_shape (v : F64.float) (d : frame) : same_shape d (fillna v d).
Proof.
  unfold fillna. repeat split.
  - unfold names. simpl. rewrite map_map. reflexivity.
  - unfold rectangular. simpl. rewrite !Forall_forall. intros H lc Hlc.
    apply in_map_iff in Hlc as ([l c] & <- & Hin). simpl.
    rewrite (fillna_column_keeps v c). exact (H _ Hin).
Qed.

Lemma impute_missing_inv (rt : runtime) (d out : frame) :
  impute_missing rt d = Ok out ->
  exists d' c v,
    knn_impute rt d = Ok d' /\ get density_col d = Ok c
    /\ median rt c = Ok v /\ out = fillna v d'.
Proof.
  unfold impute_missing. intro H. inv_bind H. inv_bind H. inv_bind H.
  injection H as <-. now exists x, x0, x1.
Qed.

(** *** The year *)
Lemma astype_int_length (rt : runtime) (c c' : column) :
  astype_int rt c = Ok c' -> col_len c' = col_len c.
Proof.
  destruct c as [xs|xs|xs|xs]; simpl; intro H.
  - now injection H as <-.
  - destruct (forallb is_finite xs); [|discriminate].
    injection H as <-. simpl. apply length_map.
  - injection H as <-. simpl. apply length_map.
  - inv_bind H. injection H as <-. simpl. exact (mapM_length _ _ _ E).
Qed.

Lemma fix_year_inv (rt : runtime) (d d' : frame) :
  fix_year rt d = Ok d' ->
  exists c c', get year_col d = Ok c /\ astype_int rt c = Ok c' /\ d' = set year_col c' d.
Proof.
  unfold fix_year. intro H. inv_bind H. inv_bind H. injection H as <-.
  now exists x, x0.
Qed.

Lemma fix_year_shape (rt : runtime) (d d' : frame) :
  fix_year rt d = Ok d' -> same_shape d d'.
Proof.
  intro H. apply fix_year_inv in H as (c & c' & Hg & Hc & ->).
  apply (same_shape_set _ c c' d Hg). exact (astype_int_length rt c c' Hc).
Qed.

(** *** The whole stage *)
Lemma drop_inv (labels : list string) (d d' : frame) :
  drop labels d = Ok d' ->
  (forall l, In l labels -> In l (names d))
  /\ d' = mkFrame (nrows d)
            (filter (fun lc => negb (mem (fst lc) labels)) (cols d)).
Proof.
  unfold drop. destruct (find _ labels) eqn:E; [discriminate|].
  intro H. injection H as <-. split; [|reflexivity].
  intros l Hl. pose proof (find_none _ _ E l Hl) as Hm. simpl in Hm.
  apply negb_false_iff in Hm. now apply mem_In.
Qed.

Lemma drop_names_incl (labels : list string) (d d' : frame) :
  drop labels d = Ok d' -> forall l, In l (names d') -> In l (names d).
Proof.
  intro H. apply drop_inv in H as [_ ->]. unfold names. simpl.
  intros l Hl. apply in_map_iff in Hl as (lc & <- & Hin).
  apply filter_In in Hin as [Hin _]. now apply in_map.
Qed.

Lemma labels_filter_unique (keep : string * column -> bool)
  (cs : list (string * column)) :
  NoDup (map fst cs) -> NoDup (map fst (filter keep cs)).
Proof.
  induction cs as [|[l c] r IH]; simpl; intro H; [constructor|].
  inversion H as [|? ? Hnot Hnd]; subst.
  destruct (keep (l, c)); simpl; [|now apply IH].
  constructor; [|now apply IH]. intro Hin. apply Hnot.
  apply in_map_iff in Hin as (x & Hx & Hin). apply filter_In in Hin as [Hin _].
  rewrite <- Hx. now apply in_map.
Qed.

Lemma drop_unique (labels : list string) (d d' : frame) :
  drop labels d = Ok d' -> unique_labels d -> unique_labels d'.
Proof.
  intro H. apply drop_inv in H as [_ ->]. unfold unique_labels, names. simpl.
  apply labels_filter_unique.
Qed.

Lemma drop_rect (labels : list string) (d d' : frame) :
  drop labels d = Ok d' -> rectangular d -> rectangular d'.
Proof.
  intro H. apply drop_inv in H as [_ ->]. unfold rectangular. simpl.
  rewrite !Forall_forall. intros Hr lc Hlc.
  apply filter_In in Hlc as [Hin _]. exact (Hr _ Hin).
Qed.

Lemma normalise_columns_rect (raw : frame) :
  rectangular raw -> rectangular (normalise_columns raw).
Proof.
  unfold rectangular, normalise_columns, rename. simpl.
  rewrite !Forall_forall. intros Hr lc Hlc.
  apply in_map_iff in Hlc as (x & <- & Hin). simpl. exact (Hr _ Hin).
Qed.

(** The stages a successful run goes through. *)
Lemma transform_inv (rt : runtime) (raw out : frame) :
  transform rt raw = Ok out ->
  exists kept clamped repaired imputed,
    drop dropped_cols (normalise_columns raw) = Ok kept
    /\ clamp_all pct_cols kept = Ok clamped
    /\ fix_density rt clamped = Ok repaired
    /\ impute_missing rt repaired = Ok imputed
    /\ fix_year rt imputed = Ok out.
Proof.
  unfold transform. intro H. inv_bind H. inv_bind H. inv_bind H. inv_bind H.
  now exists x, x0, x1, x2.
Qed.

Lemma clean_data_ok (rt : runtime) (path : string) (fs fs' : store) :
  clean_data rt path fs = (Ok tt, fs') ->
  exists raw out,
    fs path = Some raw /\ transform rt raw = Ok out
    /\ fs' = write clean_path out fs.
Proof.
  unfold clean_data, read_csv. destruct (fs path) as [raw|]; [|discriminate].
  destruct (transform rt raw) as [out|e] eqn:E; [|discriminate].
  intro H. injection H as <-. now exists raw, out.
Qed.

Lemma clean_data_raise (rt : runtime) (path : string) (fs : store) (raw : frame) :
  fs path = Some raw -> (forall out, transform rt raw <> Ok out) ->
  exists e, clean_data rt path fs = (Raise e, fs).
Proof.
  intros Hp Hf. unfold clean_data, read_csv. rewrite Hp.
  destruct (transform rt raw) as [out|e] eqn:E; [now destruct (Hf out)|now exists e].
Qed.

Lemma select_names_incl (p : column -> bool) (d : frame) (l : string) :
  In l (names (select_dtypes p d)) -> In l (names d).
Proof.
  unfold names. intro H. apply in_map_iff in H as (lc & <- & Hin).
  apply select_In in Hin as [Hin _]. now apply in_map.
Qed.

Lemma drop_kept (raw d : frame) :
  drop dropped_cols (normalise_columns raw) = Ok d -> d = kept raw.
Proof. intro H. now apply drop_inv in H as [_ ->]. Qed.

(** A run that succeeds found every column it looks up by name. *)
Lemma transform_expected (rt : runtime) (raw out : frame) :
  transform rt raw = Ok out ->
  forall col, In col expected_cols -> In col (names (normalise_columns raw)).
Proof.
  intros H col Hcol.
  apply transform_inv in H as (k & c & r & i & Hk & Hc & Hr & Hi & Hy).
  pose proof (clamp_all_shape _ _ _ Hc) as (_ & Lc & _).
  pose proof (fix_density_shape _ _ _ Hr) as (_ & Lr & _).
  assert (forall l, In l (names r) -> In l (names (normalise_columns raw))) as Hincl.
  { intros l Hl. rewrite Lr, Lc in Hl. exact (drop_names_incl _ _ _ Hk l Hl). }
  unfold expected_cols in Hcol.
  apply in_app_or in Hcol as [Hd | Hcol]; [|apply in_app_or in Hcol as [Hp | Hcol]].
  - now apply (drop_inv _ _ _ Hk).
  - apply (drop_names_incl _ _ _ Hk). exact (clamp_all_names _ _ _ Hc col Hp).
  - destruct Hcol as [<- | [<- | []]].
    + apply Hincl. rewrite Lr.
      apply fix_density_inv in Hr as (xs & Hg & _). exact (get_names _ _ _ Hg).
    + apply Hincl.
      apply fix_year_inv in Hy as (y & _ & Hg & _). apply get_names in Hg.
      apply impute_missing_inv in Hi as (d' & dc & v & Hknn & _ & _ & ->).
      pose proof (fillna_shape v d') as (_ & Lf & _). rewrite Lf in Hg.
      rewrite (knn_impute_names _ _ _ Hknn) in Hg.
      apply in_app_or in Hg as [Hg | Hg]; exact (select_names_incl _ _ _ Hg).
Qed.

(** A run that succeeds had a row to work on, and keeps the rows. *)
Lemma transform_rows (rt : runtime) (raw out : frame) :
  transform rt raw = Ok out ->
  nrows raw <> 0 /\ nrows out = nrows raw /\ (rectangular raw -> rectangular out).
Proof.
  intro H.
  apply transform_inv in H as (k & c & r & i & Hk & Hc & Hr & Hi & Hy).
  pose proof (drop_rect _ _ _ Hk) as Rk. apply drop_kept in Hk. subst k.
  pose proof (clamp_all_shape _ _ _ Hc) as (Nc & _ & Rc).
  pose proof (fix_density_shape _ _ _ Hr) as (Nr & _ & Rr).
  apply impute_missing_inv in Hi as (d' & dc & v & Hknn & _ & _ & ->).
  pose proof (knn_impute_rect _ _ _ Hknn) as Rd.
  apply knn_impute_inv in Hknn as (N0 & Nd & _).
  pose proof (fillna_shape v d') as (Nf & _ & Rf).
  pose proof (fix_year_shape _ _ _ Hy) as (Ny & _ & Ry).
  simpl in Nc. repeat split.
  - congruence.
  - congruence.
  - intro R. apply Ry, Rf, Rd, Rr, Rc, Rk. now apply normalise_columns_rect.
Qed.


(** *** The clamp, column by column *)
Lemma get_set_same (l : string) (c c0 : column) (d : frame) :
  get l d = Ok c0 -> get l (set l c d) = Ok c.
Proof. intro H. apply get_ok. apply get_ok in H. exact (lookup_set_same _ _ _ _ H). Qed.

Lemma get_set_other (l l' : string) (c : column) (d : frame) :
  l' <> l -> get l' (set l c d) = get l' d.
Proof. intro H. unfold get. now rewrite lookup_set_other. Qed.

Lemma clamp_all_other (labels : list string) (d d' : frame) (l : string) :
  clamp_all labels d = Ok d' -> ~ In l labels -> get l d' = get l d.
Proof.
  revert d. induction labels as [|col rest IH]; simpl; intros d H Hl.
  - now injection H as <-.
  - inv_bind H. rewrite (IH x H) by tauto.
    apply clamp_inv in E as (c & c' & _ & _ & ->).
    apply get_set_other. intro. subst. tauto.
Qed.

Lemma clamp_all_each (labels : list string) (d d' : frame) :
  NoDup labels -> clamp_all labels d = Ok d' ->
  forall col, In col labels ->
  exists c c', get col d = Ok c /\ clamp_column c = Ok c' /\ get col d' = Ok c'.
Proof.
  revert d. induction labels as [|col0 rest IH]; simpl; intros d Hnd H col Hcol;
    [contradiction|].
  inversion Hnd as [|? ? Hnot Hnd']; subst. inv_bind H.
  pose proof E as E'. apply clamp_inv in E' as (c & c' & Hg & Hc & ->).
  destruct Hcol as [<- | Hcol].
  - exists c, c'. repeat split; auto.
    rewrite (clamp_all_other _ _ _ col0 H Hnot). exact (get_set_same _ _ _ _ Hg).
  - destruct (IH _ Hnd' H col Hcol) as (a & a' & Ha & Hca & Hout).
    exists a, a'. repeat split; auto.
    rewrite get_set_other in Ha; [exact Ha|]. intro. subst. tauto.
Qed.

Lemma clamp_int_spec (z : Z) :
  ((100 < z)%Z -> clamp_int z = 100%Z) /\ ((z <= 100)%Z -> clamp_int z = z).
Proof.
  unfold clamp_int. destruct (Z.ltb_spec 100 z); split; intro; auto; lia.
Qed.

Lemma clamp_float_spec (x : F64.float) :
  (ltb f100 x = true -> clamp_float x = f100)
  /\ (ltb f100 x = false -> clamp_float x = x).
Proof. unfold clamp_float. destruct (ltb f100 x); split; intro; auto; discriminate. Qed.





Lemma clean_data_writes (rt : runtime) (path : string) (fs fs' : store)
  (raw : frame) :
  fs path = Some raw -> clean_data rt path fs = (Ok tt, fs') ->
  exists out, transform rt raw = Ok out /\ fs' clean_path = Some out.
Proof.
  intros Hp H. apply clean_data_ok in H as (raw0 & out & Hp0 & Ht & ->).
  rewrite Hp in Hp0. injection Hp0 as <-. exists out. split; [exact Ht|].
  unfold write. now rewrite String.eqb_refl.
Qed.


(** *** The fill, cell by cell *)
Lemma as_floats_nth (os : list obj) (xs : list F64.float) :
  as_floats os = Some xs ->
  forall i o, nth_error os i = Some o ->
    (exists x, o = OFloat x /\ nth_error xs i = Some x)
    \/ (exists z, o = OInt z /\ nth_error xs i = Some (F64.of_Z z)).
Proof.
  revert xs. induction os as [|a r IH]; intros xs H i o Hi.
  - destruct i; discriminate.
  - simpl in H. destruct (obj_as_float a) as [x|] eqn:Ea; [|discriminate].
    destruct (as_floats r) as [ys|]; [|discriminate]. injection H as <-.
    destruct i as [|i]; simpl in Hi |- *.
    + injection Hi as <-. destruct a as [s|z|y|b]; simpl in Ea; try discriminate.
      * right. exists z. split; [reflexivity|].
        destruct ((int64_min <=? z)%Z && (z <=? uint64_max)%Z); [|discriminate].
        now injection Ea as <-.
      * left. exists y. split; [reflexivity|]. now injection Ea as <-.
    + exact (IH ys eq_refl i o Hi).
Qed.

Lemma existsb_refuted {A : Type} (p : A -> bool) (l : list A) (a : A) :
  existsb p l = false -> In a l -> p a = false.
Proof.
  intros H Ha. destruct (p a) eqn:E; [|reflexivity].
  rewrite <- H. symmetry. apply existsb_exists. now exists a.
Qed.

Lemma fillna_object_cells (v : F64.float) (xs : list obj) (i : nat) (o : obj) :
  nth_error xs i = Some o ->
  nth_error (cells (fillna_column v (ColObj xs))) i
  = Some (if is_missing o then OFloat v else o)
  \/ exists z, o = OInt z
       /\ nth_error (cells (fillna_column v (ColObj xs))) i
          = Some (OFloat (F64.of_Z z)).
Proof.
  intro Hi. simpl. destruct (existsb is_missing xs) eqn:Em.
  - assert (nth_error (map (fillna_obj v) xs) i = Some (fillna_obj v o)) as Hf
      by (rewrite nth_error_map, Hi; reflexivity).
    unfold convert.
    destruct (existsb above_int64 _ && existsb negative_int _); [now left|].
    destruct (as_floats (map (fillna_obj v) xs)) as [ys|] eqn:Ea; [|now left].
    simpl. rewrite nth_error_map.
    destruct (as_floats_nth _ _ Ea i _ Hf) as [(x & Hx & Hy)|(z & Hz & Hy)].
    + left. rewrite Hy. simpl. f_equal. exact (eq_sym Hx).
    + right. exists z. rewrite Hy. split; [|reflexivity].
      unfold fillna_obj in Hz. destruct (is_missing o); [discriminate|exact Hz].
  - left. simpl. rewrite Hi.
    now rewrite (existsb_refuted _ _ o Em (nth_error_In _ _ Hi)).
Qed.

End CleanFacts.

(** * The claims *)

Import F64 Frame Clean.
Import ResultFacts FrameFacts CleanFacts.
Local Open Scope string_scope.

(** C1.  The decimal-separator repair at the density cell ["12,5"]: line 92
    stores the string ["12.5"]; the float 12.5 that line 93 computes is
    dropped, so the column stays an [object] column, is not among the
    numeric columns the imputer receives, and leaves the stage as text. *)
Theorem density_repair_keeps_strings :
  fix_density Ref.runtime Sample.density_cell
  = Ok (mkFrame 1 [("density_n", ColObj [OStr "12.5"])])
  /\ astype_float Ref.runtime (ColObj [OStr "12.5"]) = Ok [div (of_Z 25) (of_Z 2)]
  /\ names (select_dtypes is_number (mkFrame 1 [("density_n", ColObj [OStr "12.5"])]))
     = []
  /\ transform Ref.runtime Sample.raw = Ok Sample.cleaned
  /\ get density_col Sample.cleaned
     = Ok (ColObj [OStr "12.5"; OStr "60"; OFloat (Ref.num "36.25")])
  /\ ~ In density_col (names (select_dtypes is_number Sample.repaired)).
Proof.
  repeat split; try (vm_compute; reflexivity).
  vm_compute. intuition discriminate.
Qed.

(** C2.  What the imputation block does to a categorical ([object])
    column: the KNN part (lines 98-107) carries it over unchanged, but the
    fill of line 110 runs over the whole merged table, so every missing cell
    of the column becomes the median of [density_n].  The other cells keep
    their value, an integer cell being read as a float when the filled
    column holds numbers only. *)
Theorem categoricals_after_imputation (rt : runtime) (d out : frame) :
  impute_missing rt d = Ok out ->
  exists d' density v,
    knn_impute rt d = Ok d' /\ get density_col d = Ok density
    /\ median rt density = Ok v
    /\ forall l xs, In (l, ColObj xs) (cols d) ->
         In (l, ColObj xs) (cols d')
         /\ exists c,
              In (l, c) (cols out)
              /\ col_len c = List.length xs
              /\ forall i o, nth_error xs i = Some o ->
                   nth_error (cells c) i
                   = Some (if is_missing o then OFloat v else o)
                   \/ exists z, o = OInt z
                        /\ nth_error (cells c) i = Some (OFloat (of_Z z)).
Proof.
  intro H. apply impute_missing_inv in H as (d' & dc & v & Hknn & Hg & Hm & ->).
  exists d', dc, v. split; [exact Hknn|]. split; [exact Hg|]. split; [exact Hm|].
  intros l xs Hin.
  apply knn_impute_inv in Hknn as (_ & _ & Hc).
  assert (In (l, ColObj xs) (cols d')) as Hin'
    by (rewrite Hc; apply in_or_app; left; now apply select_In).
  split; [exact Hin'|].
  exists (fillna_column v (ColObj xs)). split; [|split].
  - unfold fillna. simpl. apply in_map_iff. now exists (l, ColObj xs).
  - exact (fillna_column_keeps v (ColObj xs)).
  - intros i o Hi. now apply fillna_object_cells.
Qed.

Lemma categoricals_after_imputation_witness :
  exists out,
    impute_missing Ref.runtime Sample.repaired = Ok out
    /\ exists d' density v,
         knn_impute Ref.runtime Sample.repaired = Ok d'
         /\ get density_col Sample.repaired = Ok density
         /\ median Ref.runtime density = Ok v
         /\ forall l xs, In (l, ColObj xs) (cols Sample.repaired) ->
              In (l, ColObj xs) (cols d')
              /\ exists c,
                   In (l, c) (cols out)
                   /\ col_len c = List.length xs
                   /\ forall i o, nth_error xs i = Some o ->
                        nth_error (cells c) i
                        = Some (if is_missing o then OFloat v else o)
                        \/ exists z, o = OInt z
                             /\ nth_error (cells c) i = Some (OFloat (of_Z z)).
Proof.
  eexists. split; [vm_compute; reflexivity|].
  apply (categoricals_after_imputation Ref.runtime Sample.repaired).
  vm_compute. reflexivity.
Defined.

(** C2 at one input: in the run on [Sample.raw] the table reaches line 98
    as [Sample.repaired], and the imputation block turns the missing cell of
    the categorical column [entity] into the number 36.25. *)
Lemma categorical_gap_filled :
  (data <- drop dropped_cols (normalise_columns Sample.raw) ;;
   data <- clamp_all pct_cols data ;;
   fix_density Ref.runtime data) = Ok Sample.repaired
  /\ get "entity" Sample.repaired
     = Ok (ColObj [OStr "Indonesia"; OFloat nan; OStr "Chad"])
  /\ exists out,
       impute_missing Ref.runtime Sample.repaired = Ok out
       /\ get "entity" out
          = Ok (ColObj [OStr "Indonesia"; OFloat (Ref.num "36.25"); OStr "Chad"])
       /\ get "entity" out <> get "entity" Sample.repaired.
Proof.
  split; [vm_compute; reflexivity|]. split; [vm_compute; reflexivity|].
  eexists. split; [vm_compute; reflexivity|].
  split; [vm_compute; reflexivity|]. vm_compute. discriminate.
Qed.

(** C3.  The normalisation maps the three headers as stated, the third one
    read as the quoted string it is written as, with a line feed between
    [Density] and the parenthesis. *)
Theorem normalise_headers :
  Norm.normalise "Access to electricity (% of population)" = "access_to_electricity"
  /\ Norm.normalise "GDP growth" = "gdp_growth"
  /\ Norm.normalise ("Density" ++ String "010"%char "(P/Km2)") = "density".
Proof. repeat split; vm_compute; reflexivity. Qed.

(** The same header spelled with a backslash and the letter n in place of
    the line feed goes to [density_n], the label lines 92, 93 and 110 look
    the column up under. *)
Remark density_header_spelled_out :
  Norm.normalise "Density\n(P/Km2)" = density_col.
Proof. vm_compute; reflexivity. Qed.

(** C4, as the code has it.  A numeric column with no missing value comes
    out of the KNN imputation with no cell replaced: a floating-point column
    as it was, an integer column converted to [float64], and the conversion
    of an integer of magnitude at most 2^53 denotes that integer. *)
Theorem observed_columns_kept (rt : runtime) (d d' : frame) (l : string)
  (c : column) :
  knn_impute rt d = Ok d' -> In (l, c) (cols d) -> fully_observed c = true ->
  In (l, ColFloat (to_float64 c)) (cols d')
  /\ (forall xs, to_float64 (ColFloat xs) = xs)
  /\ (forall zs, to_float64 (ColInt zs) = map of_Z zs)
  /\ (forall z, (Z.abs z <= 2 ^ 53)%Z -> exact_int (of_Z z) = Some z).
Proof.
  intros H Hin Hobs. unfold fully_observed in Hobs.
  apply andb_prop in Hobs as [Hnum Hobs].
  repeat split; [|exact F64Facts.of_Z_exact].
  apply knn_impute_inv in H as (_ & _ & ->). apply in_or_app. right.
  unfold imputed_numerics.
  assert (In (l, c) (cols (select_dtypes is_number d))) as Hsel
    by now apply select_In.
  destruct (In_enumerated (l, c) _ 0 Hsel) as [j Hj].
  apply in_map_iff. exists (j, (l, c)). split; [|exact Hj]. simpl.
  now rewrite impute_column_observed.
Qed.

Lemma observed_columns_kept_witness :
  knn_impute Ref.runtime Sample.repaired = Ok Sample.imputed
  /\ In ("gdp_growth", ColFloat [Ref.num "4.92"; Ref.num "-13.1"; Ref.num "250"])
        (cols Sample.repaired)
  /\ fully_observed (ColFloat [Ref.num "4.92"; Ref.num "-13.1"; Ref.num "250"]) = true
  /\ In ("gdp_growth", ColFloat [Ref.num "4.92"; Ref.num "-13.1"; Ref.num "250"])
        (cols Sample.imputed).
Proof.
  assert (knn_impute Ref.runtime Sample.repaired = Ok Sample.imputed) as H
    by (vm_compute; reflexivity).
  assert (In ("gdp_growth", ColFloat [Ref.num "4.92"; Ref.num "-13.1"; Ref.num "250"])
             (cols Sample.repaired)) as Hin by (simpl; tauto).
  repeat split; auto.
  exact (proj1 (observed_columns_kept Ref.runtime Sample.repaired Sample.imputed
                  "gdp_growth" _ H Hin eq_refl)).
Defined.

(** C4, as stated, fails on an integer that [float64] cannot hold: the
    fully observed column of [Sample.raw_counts] that holds 2^53 + 1 is
    written with the float that denotes 2^53 in its place, and so it leaves
    the KNN imputation on its own. *)
Lemma integer_column_rounded :
  get "Count" Sample.raw_counts = Ok (ColInt [9007199254740993; 1; 2]%Z)
  /\ fully_observed (ColInt [9007199254740993; 1; 2]%Z) = true
  /\ (exists out,
        transform Ref.runtime Sample.raw_counts = Ok out
        /\ get "count" out
           = Ok (ColFloat [of_Z 9007199254740992; of_Z 1; of_Z 2]))
  /\ knn_impute Ref.runtime Sample.big_int
     = Ok (mkFrame 1 [("count", ColFloat [of_Z 9007199254740993])])
  /\ exact_int (of_Z 9007199254740993) = Some 9007199254740992%Z.
Proof.
  split; [vm_compute; reflexivity|]. split; [vm_compute; reflexivity|].
  split; [|split; vm_compute; reflexivity].
  eexists. split; vm_compute; reflexivity.
Qed.

(** C5.  The clamp of lines 86-88: in each of the four percentage columns a
    value above 100 becomes 100 and every other value, a negative one and a
    missing one included, stays; no column outside the four, [gdp_growth]
    among them, is touched. *)
Theorem percentages_clamped (data out : frame) :
  clamp_all pct_cols data = Ok out ->
  (forall col, In col pct_cols ->
     (forall xs, get col data = Ok (ColFloat xs) ->
        get col out = Ok (ColFloat (map clamp_float xs)))
     /\ (forall zs, get col data = Ok (ColInt zs) ->
        get col out = Ok (ColInt (map clamp_int zs))))
  /\ (forall l, ~ In l pct_cols -> get l out = get l data)
  /\ get "gdp_growth" out = get "gdp_growth" data
  /\ (forall z, ((100 < z)%Z -> clamp_int z = 100%Z)
                /\ ((z <= 100)%Z -> clamp_int z = z))
  /\ (forall x, (ltb f100 x = true -> clamp_float x = f100)
                /\ (ltb f100 x = false -> clamp_float x = x))
  /\ clamp_float nan = nan
  /\ (forall m e, clamp_float (S754_finite true m e) = S754_finite true m e)
  /\ map clamp_float [Ref.num "150"; Ref.num "100"; Ref.num "45"]
     = [Ref.num "100"; Ref.num "100"; Ref.num "45"].
Proof.
  intro H.
  assert (NoDup pct_cols) as Hnd by (apply nodupb_NoDup; reflexivity).
  split; [|split; [|split; [|split; [|split; [|split; [|split]]]]]].
  - intros col Hcol.
    destruct (clamp_all_each _ _ _ Hnd H col Hcol) as (c & c' & Hg & Hc & Ho).
    split; intros xs Hx; rewrite Hx in Hg; injection Hg as <-;
      simpl in Hc; injection Hc as <-; exact Ho.
  - intros l Hl. exact (clamp_all_other _ _ _ l H Hl).
  - apply (clamp_all_other _ _ _ _ H). vm_compute. intuition discriminate.
  - exact clamp_int_spec.
  - exact clamp_float_spec.
  - reflexivity.
  - reflexivity.
  - vm_compute. reflexivity.
Qed.

Lemma percentages_clamped_witness :
  clamp_all pct_cols Sample.pruned = Ok Sample.clamped
  /\ get "access_to_electricity" Sample.clamped
     = Ok (ColFloat [Ref.num "100"; Ref.num "100"; Ref.num "45"])
  /\ get "low_carbon_electricity" Sample.clamped = Ok (ColInt [65; 100; 84]%Z)
  /\ get "gdp_growth" Sample.clamped = get "gdp_growth" Sample.pruned.
Proof.
  assert (clamp_all pct_cols Sample.pruned = Ok Sample.clamped) as H
    by (vm_compute; reflexivity).
  destruct (percentages_clamped Sample.pruned Sample.clamped H)
    as (Hpct & _ & Hgdp & _).
  split; [exact H|]. split; [|split; [|exact Hgdp]].
  - exact (proj1 (Hpct "access_to_electricity" (or_introl eq_refl)) _ eq_refl).
  - exact (proj2 (Hpct "low_carbon_electricity"
                    (or_intror (or_intror (or_intror (or_introl eq_refl)))))
                 _ eq_refl).
Defined.

(** C6.  Normalising a normalised column name returns it unchanged: the
    function of lines 64-77 is idempotent. *)
Theorem normalise_idempotent (col : string) :
  Norm.normalise (Norm.normalise col) = Norm.normalise col.
Proof.
  unfold Norm.normalise.
  rewrite list_ascii_of_string_of_list_ascii.
  now rewrite NormFacts.normalise_chars_idempotent.
Qed.

(** C7.  When a column the stage looks up by name (one of the two pruned
    columns, one of the four percentage columns, [density_n] or [year]) is
    absent from the normalised header, [clean_data] raises and the store is
    left as it was: nothing is written. *)
Theorem missing_column_fails (rt : runtime) (data_path : string) (fs : store)
  (raw : frame) (col : string) :
  fs data_path = Some raw ->
  In col expected_cols ->
  ~ In col (names (normalise_columns raw)) ->
  exists e, clean_data rt data_path fs = (Raise e, fs).
Proof.
  intros Hp Hcol Hmiss. apply (clean_data_raise rt data_path fs raw Hp).
  intros out Ht. apply Hmiss. exact (transform_expected rt raw out Ht col Hcol).
Qed.

Lemma missing_column_fails_witness :
  Sample.disk Sample.raw_without_year Sample.raw_path = Some Sample.raw_without_year
  /\ In "year" expected_cols
  /\ ~ In "year" (names (normalise_columns Sample.raw_without_year))
  /\ exists e,
       clean_data Ref.runtime Sample.raw_path (Sample.disk Sample.raw_without_year)
       = (Raise e, Sample.disk Sample.raw_without_year).
Proof.
  assert (~ In "year" (names (normalise_columns Sample.raw_without_year))) as Hmiss
    by (vm_compute; intuition discriminate).
  assert (In "year" expected_cols) as Hexp by (vm_compute; tauto).
  repeat split; auto.
  exact (missing_column_fails Ref.runtime Sample.raw_path
           (Sample.disk Sample.raw_without_year) Sample.raw_without_year "year"
           eq_refl Hexp Hmiss).
Defined.

(** C8.  On a table with no row [clean_data] raises and writes nothing. *)
Theorem empty_input_fails (rt : runtime) (data_path : string) (fs : store)
  (raw : frame) :
  fs data_path = Some raw ->
  nrows raw = 0 ->
  exists e, clean_data rt data_path fs = (Raise e, fs).
Proof.
  intros Hp Hn. apply (clean_data_raise rt data_path fs raw Hp).
  intros out Ht. now apply transform_rows in Ht as (Hne & _).
Qed.

Lemma empty_input_fails_witness :
  nrows Sample.raw_without_rows = 0
  /\ exists e,
       clean_data Ref.runtime Sample.raw_path (Sample.disk Sample.raw_without_rows)
       = (Raise e, Sample.disk Sample.raw_without_rows).
Proof.
  split; [reflexivity|].
  exact (empty_input_fails Ref.runtime Sample.raw_path
           (Sample.disk Sample.raw_without_rows) Sample.raw_without_rows
           eq_refl eq_refl).
Defined.

(** C9.  When [clean_data] succeeds, the table it writes has as many rows
    as the raw one, in every column. *)
Theorem row_count_kept (rt : runtime) (data_path : string) (fs fs' : store)
  (raw : frame) :
  fs data_path = Some raw ->
  rectangular raw ->
  clean_data rt data_path fs = (Ok tt, fs') ->
  exists out,
    fs' clean_path = Some out /\ nrows out = nrows raw /\ rectangular out.
Proof.
  intros Hp Hr H.
  destruct (clean_data_writes rt data_path fs fs' raw Hp H) as (out & Ht & Hw).
  exists out. apply transform_rows in Ht as (_ & Hn & Hrect). auto.
Qed.

Lemma row_count_kept_witness :
  rectangular Sample.raw
  /\ clean_data Ref.runtime Sample.raw_path (Sample.disk Sample.raw)
     = (Ok tt, write clean_path Sample.cleaned (Sample.disk Sample.raw))
  /\ exists out,
       write clean_path Sample.cleaned (Sample.disk Sample.raw) clean_path = Some out
       /\ nrows out = nrows Sample.raw /\ rectangular out.
Proof.
  assert (rectangular Sample.raw) as Hr by (apply rectangularb_ok; reflexivity).
  assert (clean_data Ref.runtime Sample.raw_path (Sample.disk Sample.raw)
          = (Ok tt, write clean_path Sample.cleaned (Sample.disk Sample.raw))) as Hc
    by (vm_compute; reflexivity).
  repeat split; auto.
  exact (row_count_kept Ref.runtime Sample.raw_path (Sample.disk Sample.raw) _
           Sample.raw eq_refl Hr Hc).
Defined.




(** * Further properties of the stages *)

(** ** The shape of a normalised name *)
Module NormMore.

Import Norm NormFacts Notions.
Local Open Scope list_scope.

Lemma lstrip_fixed_head (s : list ascii) :
  lstrip s = s -> hd " "%char s <> "_"%char.
Proof.
  destruct (lstrip_head s) as [H | (c & r & H & Hc)]; intro E; rewrite <- E, H.
  - simpl. discriminate.
  - simpl. intros ->. discriminate.
Qed.

Lemma rstrip_fixed_last (s : list ascii) :
  rstrip s = s -> last s " "%char <> "_"%char.
Proof.
  induction s as [|c r IH]; [simpl; discriminate|].
  destruct r as [|d r'].
  - simpl. destruct (is_us c) eqn:Hc; [discriminate|].
    intros _ ->. discriminate.
  - change (rstrip (c :: d :: r')) with
      (match rstrip (d :: r') with
       | [] => if is_us c then [] else [c]
       | x => c :: x
       end).
    destruct (rstrip (d :: r')) as [|e t] eqn:Hr.
    + destruct (is_us c); discriminate.
    + intro E. injection E as E1 E2. apply IH. congruence.
Qed.

Lemma is_open_lower (c : ascii) : is_open (lower_char c) = is_open c.
Proof. char_cases c. Qed.

Lemma is_close_lower (c : ascii) : is_close (lower_char c) = is_close c.
Proof. char_cases c. Qed.

Lemma existsb_lower (p : ascii -> bool) (s : list ascii) :
  (forall c, p (lower_char c) = p c) -> existsb p (lower s) = existsb p s.
Proof.
  intro H. unfold lower. induction s as [|c r IH]; simpl; [reflexivity|].
  now rewrite H, IH.
Qed.

(** Outside a match, text without an opening parenthesis is copied. *)
Lemma sub_parens_prefix (a rest : list ascii) :
  existsb is_open a = false ->
  sub_parens_from false (a ++ rest) = a ++ sub_parens_from false rest.
Proof.
  induction a as [|c r IH]; simpl; intro H; [reflexivity|].
  apply orb_false_elim in H as [Hc Hr]. rewrite Hc. simpl.
  f_equal. now apply IH.
Qed.

(** Inside a match, text without a closing parenthesis is skipped, and the
    closing parenthesis ends the match. *)
Lemma sub_parens_group (t rest : list ascii) :
  existsb is_close t = false ->
  sub_parens_from true (t ++ ")"%char :: rest) = sub_parens_from false rest.
Proof.
  induction t as [|c r IH]; simpl; intro H; [reflexivity|].
  apply orb_false_elim in H as [Hc Hr]. rewrite Hc. now apply IH.
Qed.

Lemma sub_parens_detail (a t b : list ascii) :
  existsb is_open a = false -> existsb is_close t = false ->
  sub_parens (a ++ "("%char :: t ++ ")"%char :: b) = sub_parens (a ++ b).
Proof.
  intros Ha Ht. unfold sub_parens. rewrite !sub_parens_prefix by exact Ha.
  f_equal. simpl.
  assert (existsb is_close (t ++ ")"%char :: b) = true) as ->.
  { rewrite existsb_app. simpl. apply orb_true_r. }
  now apply sub_parens_group.
Qed.

Lemma normalise_chars_detail (a t b : list ascii) :
  existsb is_open a = false -> existsb is_close t = false ->
  normalise_chars (a ++ "("%char :: t ++ ")"%char :: b) = normalise_chars (a ++ b).
Proof.
  intros Ha Ht. unfold normalise_chars. do 3 f_equal.
  unfold lower. rewrite !map_app. simpl map. rewrite map_app. simpl map.
  change (lower_char "("%char) with "("%char.
  change (lower_char ")"%char) with ")"%char.
  apply sub_parens_detail.
  - change (map lower_char a) with (lower a).
    now rewrite (existsb_lower is_open a is_open_lower).
  - change (map lower_char t) with (lower t).
    now rewrite (existsb_lower is_close t is_close_lower).
Qed.

Lemma chars_app (a b : string) : chars (a ++ b)%string = chars a ++ chars b.
Proof.
  unfold chars. induction a as [|c a IH]; simpl; [reflexivity|]. now rewrite IH.
Qed.

End NormMore.

(** X1.  Whatever the header, the normalised name is made of lower-case
    letters, digits and underscores only, and neither starts nor ends with an
    underscore. *)
Theorem normalised_name_shape (col : string) :
  forallb Norm.word_char (Notions.chars (Norm.normalise col)) = true
  /\ hd " "%char (Notions.chars (Norm.normalise col)) <> "_"%char
  /\ last (Notions.chars (Norm.normalise col)) " "%char <> "_"%char.
Proof.
  unfold Notions.chars, Norm.normalise.
  rewrite list_ascii_of_string_of_list_ascii.
  destruct (NormFacts.normalise_chars_normal (list_ascii_of_string col))
    as (Hw & Hl & Hr).
  split; [exact Hw|]. split.
  - now apply NormMore.lstrip_fixed_head.
  - now apply NormMore.rstrip_fixed_last.
Qed.

(** X2.  A parenthesised detail is ignored: when the text before it has no
    opening parenthesis and the detail no closing one, the header normalises
    as the header without the detail does. *)
Theorem parenthesised_detail_ignored (a t b : string) :
  existsb Norm.is_open (Notions.chars a) = false ->
  existsb Norm.is_close (Notions.chars t) = false ->
  Norm.normalise (a ++ "(" ++ t ++ ")" ++ b) = Norm.normalise (a ++ b).
Proof.
  intros Ha Ht. unfold Norm.normalise. f_equal.
  change list_ascii_of_string with Notions.chars.
  rewrite !NormMore.chars_app.
  change (Notions.chars "(") with ["("%char].
  change (Notions.chars ")") with [")"%char].
  now apply NormMore.normalise_chars_detail.
Qed.

Lemma parenthesised_detail_ignored_witness :
  existsb Norm.is_open (Notions.chars "Access to electricity ") = false
  /\ existsb Norm.is_close (Notions.chars "% of population") = false
  /\ Norm.normalise ("Access to electricity " ++ "(" ++ "% of population" ++ ")" ++ "")
     = Norm.normalise ("Access to electricity " ++ "").
Proof.
  split; [reflexivity|]. split; [reflexivity|].
  exact (parenthesised_detail_ignored "Access to electricity " "% of population" ""
           eq_refl eq_refl).
Defined.

(** ** Pruning and the number of columns *)
Module PruneFacts.

Import Frame Clean Notions ResultFacts FrameFacts CleanFacts.
Local Open Scope list_scope.

(** A filter on labels that keeps [l] does not change what [l] names. *)
Lemma lookup_filter_kept (keep : string -> bool) (l : string)
  (cs : list (string * column)) :
  keep l = true ->
  lookup l (filter (fun lc => keep (fst lc)) cs) = lookup l cs.
Proof.
  intro Hk. induction cs as [|[l0 c0] r IH]; simpl; [reflexivity|].
  destruct (keep l0) eqn:E; simpl.
  - destruct (String.eqb l0 l); [reflexivity|exact IH].
  - destruct (String.eqb l0 l) eqn:El; [|exact IH].
    apply String.eqb_eq in El. congruence.
Qed.

Lemma lookup_filter_dropped (keep : string -> bool) (l : string)
  (cs : list (string * column)) :
  keep l = false ->
  lookup l (filter (fun lc => keep (fst lc)) cs) = None.
Proof.
  intro Hk. apply lookup_None. intro Hin.
  apply in_map_iff in Hin as ([l0 c0] & E & Hin). simpl in E. subst l0.
  apply filter_In in Hin as [_ H]. simpl in H. congruence.
Qed.

Lemma drop_get_other (labels : list string) (d d' : frame) (l : string) :
  drop labels d = Ok d' -> ~ In l labels -> get l d' = get l d.
Proof.
  intros H Hl. apply drop_inv in H as [_ ->]. unfold get. simpl.
  rewrite (lookup_filter_kept (fun x => negb (mem x labels))); [reflexivity|].
  apply negb_true_iff. destruct (mem l labels) eqn:E; [|reflexivity].
  apply mem_In in E. contradiction.
Qed.

Lemma drop_get_dropped (labels : list string) (d d' : frame) (l : string) :
  drop labels d = Ok d' -> In l labels -> get l d' = Raise (KeyError l).
Proof.
  intros H Hl. apply drop_inv in H as [_ ->]. unfold get. simpl.
  rewrite (lookup_filter_dropped (fun x => negb (mem x labels))); [reflexivity|].
  apply negb_false_iff. now apply mem_In.
Qed.

(** Distinct labels that are all present select as many columns as there
    are labels. *)
Lemma selected_labels_length (labels : list string) (cs : list (string * column)) :
  NoDup (map fst cs) -> NoDup labels ->
  (forall l, In l labels -> In l (map fst cs)) ->
  List.length (filter (fun lc => mem (fst lc) labels) cs) = List.length labels.
Proof.
  intros Hcs Hls Hin.
  rewrite <- (length_map fst (filter _ cs)).
  apply Nat.le_antisymm.
  - apply NoDup_incl_length; [now apply labels_filter_unique|].
    intros l Hl. apply in_map_iff in Hl as (lc & <- & Hf).
    apply filter_In in Hf as [_ Hm]. now apply mem_In.
  - apply NoDup_incl_length; [exact Hls|].
    intros l Hl. specialize (Hin l Hl).
    apply in_map_iff in Hin as (lc & <- & Hc). apply in_map.
    apply filter_In. split; [exact Hc|]. now apply mem_In.
Qed.

Lemma drop_length (labels : list string) (d d' : frame) :
  unique_labels d -> NoDup labels -> drop labels d = Ok d' ->
  List.length (cols d') + List.length labels = List.length (cols d).
Proof.
  intros U Hls H. apply drop_inv in H as [Hin ->]. simpl.
  rewrite <- (filter_length (fun lc => mem (fst lc) labels) (cols d)).
  rewrite (selected_labels_length labels (cols d) U Hls Hin). lia.
Qed.

Lemma drop_names (labels : list string) (d d' : frame) :
  drop labels d = Ok d' ->
  names d' = filter (fun l => negb (mem l labels)) (names d).
Proof.
  intro H. apply drop_inv in H as [_ ->]. unfold names. simpl.
  induction (cols d) as [|[l c] r IH]; simpl; [reflexivity|].
  destruct (mem l labels); simpl; now rewrite IH.
Qed.


End PruneFacts.

(** X3.  The pruning of line 82, when it succeeds on a table with distinct
    labels, removes exactly two columns; the remaining labels keep their
    order, each still names the column it named, and the two pruned labels
    name nothing any more. *)
Theorem pruning_removes_two (data pruned : frame) :
  unique_labels data ->
  drop dropped_cols data = Ok pruned ->
  List.length (cols pruned) + 2 = List.length (cols data)
  /\ names pruned = filter (fun l => negb (mem l dropped_cols)) (names data)
  /\ (forall l, ~ In l dropped_cols -> get l pruned = get l data)
  /\ (forall l, In l dropped_cols -> get l pruned = Raise (KeyError l)).
Proof.
  intros U H. split; [|split; [|split]].
  - apply (PruneFacts.drop_length dropped_cols data pruned U); [|exact H].
    apply nodupb_NoDup. reflexivity.
  - exact (PruneFacts.drop_names _ _ _ H).
  - intros l Hl. exact (PruneFacts.drop_get_other _ _ _ l H Hl).
  - intros l Hl. exact (PruneFacts.drop_get_dropped _ _ _ l H Hl).
Qed.

Lemma pruning_removes_two_witness :
  unique_labels (normalise_columns Sample.raw)
  /\ drop dropped_cols (normalise_columns Sample.raw) = Ok Sample.pruned
  /\ List.length (cols Sample.pruned) + 2
     = List.length (cols (normalise_columns Sample.raw))
  /\ get "gdp_growth" Sample.pruned = get "gdp_growth" (normalise_columns Sample.raw)
  /\ get "renewables" Sample.pruned = Raise (KeyError "renewables").
Proof.
  assert (unique_labels (normalise_columns Sample.raw)) as U
    by (apply nodupb_NoDup; vm_compute; reflexivity).
  assert (drop dropped_cols (normalise_columns Sample.raw) = Ok Sample.pruned) as H
    by (vm_compute; reflexivity).
  destruct (pruning_removes_two (normalise_columns Sample.raw) Sample.pruned U H)
    as (Hlen & _ & Hkeep & Hgone).
  split; [exact U|]. split; [exact H|]. split; [exact Hlen|]. split.
  - apply Hkeep. vm_compute. intuition discriminate.
  - apply Hgone. vm_compute. tauto.
Defined.



(** ** The clamp, once more *)
Module ClampFacts.

Import F64 Frame Clean ResultFacts FrameFacts CleanFacts.
Local Open Scope list_scope.

Lemma clamp_int_idempotent (z : Z) : clamp_int (clamp_int z) = clamp_int z.
Proof.
  unfold clamp_int. destruct (Z.ltb_spec 100 z) as [H|H]; [reflexivity|].
  destruct (Z.ltb_spec 100 z); [lia|reflexivity].
Qed.

Lemma clamp_float_bound (x : float) : ltb f100 (clamp_float x) = false.
Proof. unfold clamp_float. destruct (ltb f100 x) eqn:E; [reflexivity|exact E]. Qed.

Lemma clamp_float_idempotent (x : float) :
  clamp_float (clamp_float x) = clamp_float x.
Proof.
  unfold clamp_float at 1. now rewrite clamp_float_bound.
Qed.

Lemma clamp_int_bound (z : Z) : (clamp_int z <= 100)%Z.
Proof. unfold clamp_int. destruct (Z.ltb_spec 100 z); lia. Qed.

Lemma clamp_obj_fixed (o o' : obj) : clamp_obj o = Ok o' -> clamp_obj o' = Ok o'.
Proof.
  unfold clamp_obj. intro H. inv_bind H. injection H as <-.
  destruct x; [reflexivity|]. now rewrite E.
Qed.

Lemma mapM_fixed {A : Type} (f : A -> result A) (l l' : list A) :
  (forall a a', f a = Ok a' -> f a' = Ok a') ->
  mapM f l = Ok l' -> mapM f l' = Ok l'.
Proof.
  intros Hf H. apply mapM_ok in H.
  induction H as [|a a' r r' Ha _ IH]; simpl; [reflexivity|].
  rewrite (Hf a a' Ha). simpl. now rewrite IH.
Qed.

(** A clamped column is a fixed point of the clamp. *)
Lemma clamp_column_fixed (c c' : column) :
  clamp_column c = Ok c' -> clamp_column c' = Ok c'.
Proof.
  destruct c as [zs|xs|bs|os]; simpl; intro H.
  - injection H as <-. simpl. rewrite map_map.
    do 2 f_equal. apply map_ext. intro. apply clamp_int_idempotent.
  - injection H as <-. simpl. rewrite map_map.
    do 2 f_equal. apply map_ext. intro. apply clamp_float_idempotent.
  - now injection H as <-.
  - inv_bind H. injection H as <-. simpl.
    now rewrite (mapM_fixed clamp_obj os x clamp_obj_fixed E).
Qed.

(** Storing under a label the column it already names changes nothing. *)
Lemma set_get_id (l : string) (c : column) (d : frame) :
  unique_labels d -> get l d = Ok c -> set l c d = d.
Proof.
  intros U Hg. apply get_ok in Hg. destruct d as [n cs]. unfold set. simpl in *.
  f_equal. rewrite <- (map_id cs) at 2. apply map_ext_in.
  intros [l0 c0] Hin. simpl. destruct (String.eqb l0 l) eqn:E; [|reflexivity].
  apply String.eqb_eq in E. subst l0.
  rewrite (unique_lookup l cs c0 U Hin) in Hg. now injection Hg as ->.
Qed.

Lemma clamp_all_fixed (labels : list string) (d : frame) :
  unique_labels d ->
  (forall col, In col labels ->
     exists c, get col d = Ok c /\ clamp_column c = Ok c) ->
  clamp_all labels d = Ok d.
Proof.
  intros U H. induction labels as [|col rest IH]; simpl; [reflexivity|].
  destruct (H col (or_introl eq_refl)) as (c & Hg & Hc).
  unfold clamp. rewrite Hg. simpl. rewrite Hc. simpl.
  rewrite (set_get_id col c d U Hg). apply IH.
  intros col' Hin. apply H. now right.
Qed.

End ClampFacts.

(** X5.  After the clamp of lines 86-88 no cell of a percentage column is
    above 100: every float cell fails the comparison [100 < x] and every
    integer cell is at most 100. *)
Theorem clamped_within_bound (data out : frame) (col : string) :
  clamp_all pct_cols data = Ok out ->
  In col pct_cols ->
  (forall xs, get col out = Ok (ColFloat xs) ->
     forall x, In x xs -> ltb f100 x = false)
  /\ (forall zs, get col out = Ok (ColInt zs) ->
     forall z, In z zs -> (z <= 100)%Z).
Proof.
  intros H Hcol.
  assert (NoDup pct_cols) as Hnd by (apply nodupb_NoDup; reflexivity).
  destruct (clamp_all_each _ _ _ Hnd H col Hcol) as (c & c' & _ & Hc & Ho).
  split; intros ys Hys y Hy; rewrite Hys in Ho; injection Ho as <-.
  - destruct c as [zs|xs|bs|os]; simpl in Hc; try discriminate.
    + injection Hc as <-. apply in_map_iff in Hy as (x0 & <- & _).
      apply ClampFacts.clamp_float_bound.
    + apply bind_ok in Hc as (? & _ & Hc). discriminate.
  - destruct c as [zs|xs|bs|os]; simpl in Hc; try discriminate.
    + injection Hc as <-. apply in_map_iff in Hy as (z0 & <- & _).
      apply ClampFacts.clamp_int_bound.
    + apply bind_ok in Hc as (? & _ & Hc). discriminate.
Qed.

Lemma clamped_within_bound_witness :
  clamp_all pct_cols Sample.pruned = Ok Sample.clamped
  /\ In "access_to_electricity" pct_cols
  /\ (forall x, In x [Ref.num "100"; Ref.num "100"; Ref.num "45"] ->
        ltb f100 x = false).
Proof.
  assert (clamp_all pct_cols Sample.pruned = Ok Sample.clamped) as H
    by (vm_compute; reflexivity).
  assert (In "access_to_electricity" pct_cols) as Hin by (simpl; tauto).
  split; [exact H|]. split; [exact Hin|].
  exact (proj1 (clamped_within_bound Sample.pruned Sample.clamped
                  "access_to_electricity" H Hin) _ eq_refl).
Defined.

(** X6.  The clamp is idempotent: run again on its own result, on a table
    with distinct labels, the loop of lines 87-88 succeeds and returns that
    table unchanged. *)
Theorem clamp_idempotent (data out : frame) :
  unique_labels data ->
  clamp_all pct_cols data = Ok out ->
  clamp_all pct_cols out = Ok out.
Proof.
  intros U H.
  assert (NoDup pct_cols) as Hnd by (apply nodupb_NoDup; reflexivity).
  apply ClampFacts.clamp_all_fixed.
  - exact (same_shape_unique _ _ (clamp_all_shape _ _ _ H) U).
  - intros col Hcol.
    destruct (clamp_all_each _ _ _ Hnd H col Hcol) as (c & c' & _ & Hc & Ho).
    exists c'. split; [exact Ho|]. exact (ClampFacts.clamp_column_fixed c c' Hc).
Qed.

Lemma clamp_idempotent_witness :
  unique_labels Sample.pruned
  /\ clamp_all pct_cols Sample.pruned = Ok Sample.clamped
  /\ clamp_all pct_cols Sample.clamped = Ok Sample.clamped.
Proof.
  assert (unique_labels Sample.pruned) as U
    by (apply nodupb_NoDup; vm_compute; reflexivity).
  assert (clamp_all pct_cols Sample.pruned = Ok Sample.clamped) as H
    by (vm_compute; reflexivity).
  split; [exact U|]. split; [exact H|].
  exact (clamp_idempotent Sample.pruned Sample.clamped U H).
Defined.

(** ** The density column *)
Module DensityFacts.

Import F64 Frame Clean Notions ResultFacts FrameFacts CleanFacts PruneFacts.
Local Open Scope list_scope.

Lemma replace_commas_chars (s : string) :
  chars (replace_commas s)
  = map (fun c => if Ascii.eqb c "," then "."%char else c) (chars s).
Proof. unfold chars, replace_commas. apply list_ascii_of_string_of_list_ascii. Qed.

Lemma replace_commas_free (s : string) : ~ In ","%char (chars (replace_commas s)).
Proof.
  rewrite replace_commas_chars. intro H.
  apply in_map_iff in H as (c & E & _).
  destruct (Ascii.eqb c ",") eqn:Ec; [discriminate|].
  apply Ascii.eqb_neq in Ec. contradiction.
Qed.

Lemma mapM_each {A B : Type} (f : A -> result B) (l : list A) (l' : list B) (a : A) :
  mapM f l = Ok l' -> In a l -> exists b, f a = Ok b.
Proof.
  intros H Hin. apply mapM_ok in H.
  induction H as [|x y r r' Hx _ IH]; [contradiction|].
  destruct Hin as [<- | Hin]; [now exists y|now apply IH].
Qed.

(** The density column as the repair finds it is the one the normalised
    header names: pruning and the clamp do not touch it. *)
Lemma density_reaches_repair (raw kept' clamped : frame) :
  drop dropped_cols (normalise_columns raw) = Ok kept' ->
  clamp_all pct_cols kept' = Ok clamped ->
  get density_col clamped = get density_col (normalise_columns raw).
Proof.
  intros Hk Hc.
  rewrite (clamp_all_other _ _ _ density_col Hc)
    by (vm_compute; intuition discriminate).
  apply (drop_get_other _ _ _ density_col Hk). vm_compute. intuition discriminate.
Qed.

(** What a successful repair leaves in the density column. *)
Lemma fix_density_cells (rt : runtime) (d d' : frame) :
  fix_density rt d = Ok d' ->
  exists xs,
    get density_col d = Ok (ColObj xs)
    /\ get density_col d' = Ok (ColObj (map str_replace_obj xs))
    /\ forall s, In (OStr s) xs -> py_float rt (replace_commas s) <> None.
Proof.
  intro H. pose proof H as H0. apply fix_density_inv in H0 as (xs & Hg & ->).
  exists xs. split; [exact Hg|].
  assert (get density_col (set density_col (ColObj (map str_replace_obj xs)) d)
          = Ok (ColObj (map str_replace_obj xs))) as Hg'
    by exact (get_set_same _ _ _ _ Hg).
  split; [exact Hg'|].
  intros s Hs. unfold fix_density in H. rewrite Hg in H. simpl in H.
  destruct (has_str_accessor xs); [|discriminate]. simpl in H.
  rewrite Hg' in H. simpl in H. inv_bind H.
  assert (In (OStr (replace_commas s)) (map str_replace_obj xs)) as Hin
    by (apply in_map_iff; exists (OStr s); now split).
  destruct (mapM_each _ _ _ _ E Hin) as (b & Hb). simpl in Hb.
  destruct (py_float rt (replace_commas s)); [discriminate|discriminate].
Qed.

End DensityFacts.

(** X7.  When the density column is not an [object] column (a table whose
    densities were all read as numbers), line 92 has no [.str] accessor to
    call: [clean_data] raises and writes nothing. *)
Theorem numeric_density_fails (rt : runtime) (data_path : string) (fs : store)
  (raw : frame) (c : column) :
  fs data_path = Some raw ->
  get density_col (normalise_columns raw) = Ok c ->
  is_object c = false ->
  exists e, clean_data rt data_path fs = (Raise e, fs).
Proof.
  intros Hp Hg Hc. apply (clean_data_raise rt data_path fs raw Hp).
  intros out Ht.
  apply transform_inv in Ht as (k & cl & r & _ & Hk & Hcl & Hr & _).
  apply fix_density_inv in Hr as (xs & Hd & _).
  rewrite (DensityFacts.density_reaches_repair raw k cl Hk Hcl), Hg in Hd.
  injection Hd as ->. discriminate.
Qed.

Lemma numeric_density_fails_witness :
  get density_col (normalise_columns Sample.raw_dotted)
  = Ok (ColFloat [Ref.num "12.5"; Ref.num "60"; nan])
  /\ exists e,
       clean_data Ref.runtime Sample.raw_path (Sample.disk Sample.raw_dotted)
       = (Raise e, Sample.disk Sample.raw_dotted).
Proof.
  split; [vm_compute; reflexivity|].
  exact (numeric_density_fails Ref.runtime Sample.raw_path
           (Sample.disk Sample.raw_dotted) Sample.raw_dotted _
           eq_refl eq_refl eq_refl).
Defined.

(** X8.  A density string that is still not a number after its commas are
    replaced makes the cast of line 93 raise: [clean_data] fails and writes
    nothing, the cell is not turned into a missing value. *)
Theorem unparseable_density_fails (rt : runtime) (data_path : string)
  (fs : store) (raw : frame) (xs : list obj) (s : string) :
  fs data_path = Some raw ->
  get density_col (normalise_columns raw) = Ok (ColObj xs) ->
  In (OStr s) xs ->
  py_float rt (replace_commas s) = None ->
  exists e, clean_data rt data_path fs = (Raise e, fs).
Proof.
  intros Hp Hg Hs Hnone. apply (clean_data_raise rt data_path fs raw Hp).
  intros out Ht.
  apply transform_inv in Ht as (k & cl & r & _ & Hk & Hcl & Hr & _).
  apply DensityFacts.fix_density_cells in Hr as (ys & Hd & _ & Hparse).
  rewrite (DensityFacts.density_reaches_repair raw k cl Hk Hcl), Hg in Hd.
  injection Hd as <-. exact (Hparse s Hs Hnone).
Qed.

Lemma unparseable_density_fails_witness :
  get density_col (normalise_columns Sample.raw_unknown)
  = Ok (ColObj [OStr "12,5"; OStr "unknown"; OFloat nan])
  /\ py_float Ref.runtime (replace_commas "unknown") = None
  /\ exists e,
       clean_data Ref.runtime Sample.raw_path (Sample.disk Sample.raw_unknown)
       = (Raise e, Sample.disk Sample.raw_unknown).
Proof.
  split; [vm_compute; reflexivity|]. split; [vm_compute; reflexivity|].
  apply (unparseable_density_fails Ref.runtime Sample.raw_path
           (Sample.disk Sample.raw_unknown) Sample.raw_unknown
           [OStr "12,5"; OStr "unknown"; OFloat nan] "unknown").
  - reflexivity.
  - vm_compute. reflexivity.
  - simpl. tauto.
  - vm_compute. reflexivity.
Defined.

(** X9.  What lines 92-93 leave behind when they succeed: the density
    column is still an [object] column with one cell for each cell it had,
    every string in it is free of commas and is read as a number by [float],
    every other cell is missing; the table keeps its row count and its
    labels, and no other column has changed. *)
Theorem density_repaired (rt : runtime) (d d' : frame) :
  fix_density rt d = Ok d' ->
  (exists xs ys,
     get density_col d = Ok (ColObj xs)
     /\ get density_col d' = Ok (ColObj ys)
     /\ List.length ys = List.length xs
     /\ forall o, In o ys ->
          match o with
          | OStr s => ~ In ","%char (Notions.chars s) /\ py_float rt s <> None
          | _ => is_missing o = true
          end)
  /\ nrows d' = nrows d
  /\ names d' = names d
  /\ forall l, l <> density_col -> get l d' = get l d.
Proof.
  intro H. split; [|split; [|split]].
  - destruct (DensityFacts.fix_density_cells rt d d' H) as (xs & Hg0 & Hg & Hparse).
    exists xs, (map str_replace_obj xs). split; [exact Hg0|]. split; [exact Hg|].
    split; [apply length_map|].
    intros o Ho. apply in_map_iff in Ho as (o0 & <- & Hin).
    destruct o0 as [s|z|x|b]; simpl; try reflexivity.
    split; [apply DensityFacts.replace_commas_free|now apply Hparse].
  - exact (proj1 (fix_density_shape rt d d' H)).
  - exact (proj1 (proj2 (fix_density_shape rt d d' H))).
  - intros l Hl. apply fix_density_inv in H as (xs & _ & ->).
    now apply get_set_other.
Qed.

Lemma density_repaired_witness :
  fix_density Ref.runtime Sample.clamped = Ok Sample.repaired
  /\ (exists xs ys,
        get density_col Sample.clamped = Ok (ColObj xs)
        /\ get density_col Sample.repaired = Ok (ColObj ys)
        /\ List.length ys = List.length xs
        /\ forall o, In o ys ->
             match o with
             | OStr s => ~ In ","%char (Notions.chars s) /\ py_float Ref.runtime s <> None
             | _ => is_missing o = true
             end)
  /\ nrows Sample.repaired = nrows Sample.clamped
  /\ names Sample.repaired = names Sample.clamped
  /\ forall l, l <> density_col -> get l Sample.repaired = get l Sample.clamped.
Proof.
  assert (fix_density Ref.runtime Sample.clamped = Ok Sample.repaired) as H
    by (vm_compute; reflexivity).
  split; [exact H|].
  exact (density_repaired Ref.runtime Sample.clamped Sample.repaired H).
Defined.

(** ** Imputation and the year *)
Module ImputeFacts.

Import F64 Frame Clean Notions ResultFacts FrameFacts CleanFacts PruneFacts.
Local Open Scope list_scope.

Lemma as_floats_no_gap (os : list obj) (ys : list float) :
  as_floats os = Some ys ->
  forallb (fun o => negb (is_missing o)) os = true ->
  forallb (fun x => negb (is_nan x)) ys = true.
Proof.
  revert ys. induction os as [|o r IH]; simpl; intros ys H Hn.
  - injection H as <-. reflexivity.
  - destruct (obj_as_float o) as [x|] eqn:Eo; [|discriminate].
    destruct (as_floats r) as [zs|]; [|discriminate]. injection H as <-.
    apply andb_true_iff in Hn as (Ho & Hr). simpl.
    rewrite (IH zs eq_refl Hr), andb_true_r.
    destruct o as [s|z|y|b]; simpl in Eo; try discriminate.
    + destruct ((int64_min <=? z)%Z && (z <=? uint64_max)%Z); [|discriminate].
      injection Eo as <-. now rewrite F64Facts.of_Z_not_nan.
    + injection Eo as <-. exact Ho.
Qed.

Lemma fillna_column_no_gap (v : float) (c : column) :
  is_nan v = false -> no_gap (fillna_column v c) = true.
Proof.
  intro Hv. destruct c as [zs|xs|bs|os]; simpl; try reflexivity.
  - apply forallb_forall. intros x Hx. apply in_map_iff in Hx as (x0 & <- & _).
    unfold fillna_float. destruct (is_nan x0) eqn:E; [now rewrite Hv|now rewrite E].
  - assert (forallb (fun o => negb (is_missing o)) (map (fillna_obj v) os) = true)
      as Hfilled.
    { apply forallb_forall. intros o Ho. apply in_map_iff in Ho as (o0 & <- & _).
      unfold fillna_obj.
      destruct (is_missing o0) eqn:E; simpl; [now rewrite Hv|now rewrite E]. }
    destruct (existsb is_missing os) eqn:Em.
    + unfold convert.
      destruct (existsb above_int64 _ && existsb negative_int _); [exact Hfilled|].
      destruct (as_floats (map (fillna_obj v) os)) as [ys|] eqn:Ea;
        [|exact Hfilled].
      simpl. now apply (as_floats_no_gap _ ys Ea).
    + simpl. apply forallb_forall. intros o Ho.
      now rewrite (existsb_refuted _ _ o Em Ho).
Qed.

Lemma fillna_float_observed (v : float) (xs : list float) :
  forallb (fun x => negb (is_nan x)) xs = true -> map (fillna_float v) xs = xs.
Proof.
  intro H. rewrite <- (map_id xs) at 2. apply map_ext_in. intros x Hx.
  rewrite forallb_forall in H. specialize (H x Hx). unfold fillna_float.
  destruct (is_nan x); [discriminate|reflexivity].
Qed.

(** A fully observed numeric column passes the KNN imputation as its
    [float64] values. *)
Lemma knn_impute_observed (rt : runtime) (d d' : frame) (l : string) (c : column) :
  knn_impute rt d = Ok d' -> In (l, c) (cols d) -> fully_observed c = true ->
  In (l, ColFloat (to_float64 c)) (cols d').
Proof.
  intros H Hin Hobs. unfold fully_observed in Hobs.
  apply andb_prop in Hobs as [Hnum Hobs].
  apply knn_impute_inv in H as (_ & _ & ->). apply in_or_app. right.
  unfold imputed_numerics.
  assert (In (l, c) (cols (select_dtypes is_number d))) as Hsel
    by now apply select_In.
  destruct (In_enumerated (l, c) _ 0 Hsel) as [j Hj].
  apply in_map_iff. exists (j, (l, c)). split; [|exact Hj]. simpl.
  now rewrite impute_column_observed.
Qed.

(** When the imputation succeeds, every numeric column had an observed
    value: the imputer leaves a column without one out, and the frame of
    line 104 cannot be built. *)
Lemma knn_impute_no_blank (rt : runtime) (d d' : frame) (l : string) (c : column) :
  knn_impute rt d = Ok d' -> In (l, c) (cols d) -> is_number c = true ->
  all_missing (to_float64 c) = false.
Proof.
  unfold knn_impute. intros H Hin Hnum. inv_bind H. inv_bind H.
  apply fit_transform_inv in E as [_ ->];
    [|intros lc Hlc; now apply select_In in Hlc].
  apply data_frame_inv in E0 as [Hlen _].
  set (m := map (fun lc => to_float64 (snd lc)) (cols (select_dtypes is_number d))) in *.
  unfold knn_transform, names in Hlen. rewrite !length_map in Hlen.
  assert (List.length (combine (seq 0 (List.length m)) m)
          = List.length (cols (select_dtypes is_number d))) as Hm
    by (rewrite length_combine, length_seq; unfold m; rewrite length_map; lia).
  rewrite <- Hm in Hlen. apply filter_length_forallb in Hlen.
  rewrite forallb_forall in Hlen.
  assert (In (to_float64 c) m) as Hc.
  { unfold m. apply in_map_iff. exists (l, c). split; [reflexivity|].
    now apply select_In. }
  destruct (In_enumerated _ m 0 Hc) as [j Hj].
  specialize (Hlen _ Hj). simpl in Hlen. now apply negb_true_iff.
Qed.

Lemma NoDup_regrouped (p q : column -> bool) (cs : list (string * column)) :
  (forall c, p c = true -> q c = false) ->
  NoDup (map fst cs) ->
  NoDup (map fst (filter (fun lc => p (snd lc)) cs)
         ++ map fst (filter (fun lc => q (snd lc)) cs)).
Proof.
  intros Hpq. induction cs as [|[l c] r IH]; simpl; intro H; [constructor|].
  inversion H as [|? ? Hnot Hnd]; subst. specialize (IH Hnd).
  assert (forall f, ~ In l (map fst (filter f r))) as Hout.
  { intros f Hin. apply Hnot. apply in_map_iff in Hin as (x & <- & Hx).
    apply filter_In in Hx as [Hx _]. now apply in_map. }
  destruct (p c) eqn:Ep; simpl.
  - rewrite (Hpq c Ep). constructor; [|exact IH].
    intro Hin. apply in_app_or in Hin as [Hin|Hin]; exact (Hout _ Hin).
  - destruct (q c); simpl; [|exact IH].
    apply NoDup_Add with (a := l) (l := map fst (filter (fun lc => p (snd lc)) r)
                                        ++ map fst (filter (fun lc => q (snd lc)) r)).
    + apply Add_app.
    + split; [exact IH|].
      intro Hin. apply in_app_or in Hin as [Hin|Hin]; exact (Hout _ Hin).
Qed.

Lemma knn_impute_unique (rt : runtime) (d d' : frame) :
  knn_impute rt d = Ok d' -> unique_labels d -> unique_labels d'.
Proof.
  intros H U. unfold unique_labels. rewrite (knn_impute_names rt d d' H).
  unfold names, select_dtypes. simpl.
  apply NoDup_regrouped; [|exact U].
  intros c Hc. destruct c; cbv in Hc |- *; congruence.
Qed.

Lemma exact_int_trunc (x : float) (z : Z) :
  exact_int x = Some z -> trunc x = Some z /\ is_finite x = true.
Proof.
  destruct x as [s|s| |s m e]; simpl; try discriminate.
  - intro H. now injection H as <-.
  - destruct e as [|k|k]; intro H.
    + now injection H as <-.
    + now injection H as <-.
    + match type of H with
      | (if ?t then _ else _) = _ => destruct t; [|discriminate]
      end.
      now injection H as <-.
Qed.

(** An integer of magnitude at most 2^53 comes back from [float64]. *)
Lemma float_to_int64_of_Z (z : Z) :
  (Z.abs z <= 2 ^ 53)%Z ->
  float_to_int64 (of_Z z) = z /\ is_finite (of_Z z) = true
  /\ is_nan (of_Z z) = false.
Proof.
  intro Hz. pose proof (F64Facts.of_Z_exact z Hz) as He.
  apply exact_int_trunc in He as [Ht Hf]. unfold float_to_int64. rewrite Ht.
  assert (in_int64 z = true) as ->.
  { unfold in_int64, int64_min, int64_max. apply andb_true_intro.
    split; apply Z.leb_le; lia. }
  repeat split; [exact Hf|].
  unfold is_finite in Hf. apply negb_true_iff, orb_false_elim in Hf. tauto.
Qed.

(** A label that is neither pruned, nor clamped, nor the density names the
    same column at line 98 as in the normalised header. *)
Lemma untouched_before_imputation (rt : runtime) (raw k cl r : frame) (l : string) :
  drop dropped_cols (normalise_columns raw) = Ok k ->
  clamp_all pct_cols k = Ok cl ->
  fix_density rt cl = Ok r ->
  ~ In l dropped_cols -> ~ In l pct_cols -> l <> density_col ->
  get l r = get l (normalise_columns raw).
Proof.
  intros Hk Hcl Hr Hd Hp Hn.
  apply fix_density_inv in Hr as (xs & _ & ->).
  rewrite get_set_other by exact Hn.
  rewrite (clamp_all_other _ _ _ l Hcl Hp).
  exact (drop_get_other _ _ _ l Hk Hd).
Qed.

Lemma shape_chain_unique (rt : runtime) (raw k cl r : frame) :
  unique_labels (normalise_columns raw) ->
  drop dropped_cols (normalise_columns raw) = Ok k ->
  clamp_all pct_cols k = Ok cl ->
  fix_density rt cl = Ok r ->
  unique_labels r.
Proof.
  intros U Hk Hcl Hr.
  apply (same_shape_unique _ _ (fix_density_shape _ _ _ Hr)).
  apply (same_shape_unique _ _ (clamp_all_shape _ _ _ Hcl)).
  exact (drop_unique _ _ _ Hk U).
Qed.

End ImputeFacts.

(** X10.  When the imputation block succeeds and the median of the density
    column is a number, the table it returns has no missing cell left, in
    the numeric columns and in the categorical ones. *)
Theorem gaps_closed (rt : runtime) (d out : frame) (density : column) (v : float) :
  impute_missing rt d = Ok out ->
  get density_col d = Ok density ->
  median rt density = Ok v ->
  is_nan v = false ->
  forall l c, In (l, c) (cols out) -> Notions.no_gap c = true.
Proof.
  intros H Hg Hm Hv l c Hin.
  apply impute_missing_inv in H as (d' & dc & v' & _ & Hg' & Hm' & ->).
  rewrite Hg in Hg'. injection Hg' as <-. rewrite Hm in Hm'. injection Hm' as <-.
  unfold fillna in Hin. simpl in Hin.
  apply in_map_iff in Hin as ([l0 c0] & E & _). injection E as _ <-.
  now apply ImputeFacts.fillna_column_no_gap.
Qed.

Lemma gaps_closed_witness :
  impute_missing Ref.runtime Sample.repaired = Ok Sample.filled
  /\ get density_col Sample.repaired
     = Ok (ColObj [OStr "12.5"; OStr "60"; OFloat nan])
  /\ median Ref.runtime (ColObj [OStr "12.5"; OStr "60"; OFloat nan])
     = Ok (Ref.num "36.25")
  /\ forall l c, In (l, c) (cols Sample.filled) -> Notions.no_gap c = true.
Proof.
  assert (impute_missing Ref.runtime Sample.repaired = Ok Sample.filled) as H
    by (vm_compute; reflexivity).
  assert (median Ref.runtime (ColObj [OStr "12.5"; OStr "60"; OFloat nan])
          = Ok (Ref.num "36.25")) as Hm by (vm_compute; reflexivity).
  split; [exact H|]. split; [reflexivity|]. split; [exact Hm|].
  exact (gaps_closed Ref.runtime Sample.repaired Sample.filled _ _
           H eq_refl Hm eq_refl).
Defined.

(** X11.  The year survives the detour through [float64]: when the raw
    year column is an integer column with values of magnitude at most 2^53
    and the labels are distinct, a successful run writes the year column
    with exactly those integers. *)
Theorem year_survives (rt : runtime) (raw out : frame) (zs : list Z) :
  unique_labels (normalise_columns raw) ->
  transform rt raw = Ok out ->
  get year_col (normalise_columns raw) = Ok (ColInt zs) ->
  (forall z, In z zs -> (Z.abs z <= 2 ^ 53)%Z) ->
  get year_col out = Ok (ColInt zs).
Proof.
  intros U H Hy Hz.
  apply transform_inv in H as (k & cl & r & i & Hk & Hcl & Hr & Hi & Hfy).
  pose proof (ImputeFacts.shape_chain_unique rt raw k cl r U Hk Hcl Hr) as Ur.
  assert (get year_col r = Ok (ColInt zs)) as Hyr.
  { rewrite (ImputeFacts.untouched_before_imputation rt raw k cl r year_col
               Hk Hcl Hr); [exact Hy| | |]; vm_compute; intuition discriminate. }
  apply impute_missing_inv in Hi as (d' & dc & v & Hknn & _ & _ & ->).
  assert (forallb (fun x => negb (is_nan x)) (map of_Z zs) = true) as Hobs.
  { apply forallb_forall. intros x Hx. apply in_map_iff in Hx as (z & <- & Hin).
    destruct (ImputeFacts.float_to_int64_of_Z z (Hz z Hin)) as (_ & _ & ->).
    reflexivity. }
  assert (In (year_col, ColFloat (map of_Z zs)) (cols d')) as Hin.
  { apply (ImputeFacts.knn_impute_observed rt r d' year_col (ColInt zs) Hknn).
    - now apply lookup_In, get_ok.
    - unfold fully_observed. simpl. exact Hobs. }
  assert (get year_col (fillna v d') = Ok (ColFloat (map of_Z zs))) as Hgf.
  { apply get_ok, unique_lookup.
    - exact (same_shape_unique _ _ (fillna_shape v d')
               (ImputeFacts.knn_impute_unique rt r d' Hknn Ur)).
    - unfold fillna. simpl. apply in_map_iff.
      exists (year_col, ColFloat (map of_Z zs)). split; [|exact Hin]. simpl.
      now rewrite ImputeFacts.fillna_float_observed. }
  apply fix_year_inv in Hfy as (c & c' & Hg & Hc & ->).
  rewrite Hgf in Hg. injection Hg as <-. simpl in Hc.
  assert (forallb is_finite (map of_Z zs) = true) as Hfin.
  { apply forallb_forall. intros x Hx. apply in_map_iff in Hx as (z & <- & Hin').
    now destruct (ImputeFacts.float_to_int64_of_Z z (Hz z Hin')) as (_ & -> & _). }
  rewrite Hfin in Hc. injection Hc as <-.
  rewrite (get_set_same _ _ _ _ Hgf). do 2 f_equal.
  rewrite map_map. rewrite <- (map_id zs) at 2. apply map_ext_in.
  intros z Hin'. now destruct (ImputeFacts.float_to_int64_of_Z z (Hz z Hin')) as (-> & _).
Qed.

Lemma year_survives_witness :
  unique_labels (normalise_columns Sample.raw)
  /\ transform Ref.runtime Sample.raw = Ok Sample.cleaned
  /\ get year_col (normalise_columns Sample.raw) = Ok (ColInt [2000; 2001; 2002]%Z)
  /\ get year_col Sample.cleaned = Ok (ColInt [2000; 2001; 2002]%Z).
Proof.
  assert (unique_labels (normalise_columns Sample.raw)) as U
    by (apply nodupb_NoDup; vm_compute; reflexivity).
  assert (transform Ref.runtime Sample.raw = Ok Sample.cleaned) as H
    by (vm_compute; reflexivity).
  assert (get year_col (normalise_columns Sample.raw)
          = Ok (ColInt [2000; 2001; 2002]%Z)) as Hy by (vm_compute; reflexivity).
  split; [exact U|]. split; [exact H|]. split; [exact Hy|].
  apply (year_survives Ref.runtime Sample.raw Sample.cleaned _ U H Hy).
  intros z Hz. simpl in Hz. destruct Hz as [<-|[<-|[<-|[]]]]; vm_compute; discriminate.
Defined.

(** X12.  A numeric column with no observed value, unless it is one of the
    two pruned ones, makes [clean_data] fail: the imputer leaves the column
    out, the frame of line 104 gets fewer columns than labels, and nothing
    is written. *)
Theorem blank_numeric_column_fails (rt : runtime) (data_path : string)
  (fs : store) (raw : frame) (l : string) (xs : list float) :
  fs data_path = Some raw ->
  get l (normalise_columns raw) = Ok (ColFloat xs) ->
  ~ In l dropped_cols ->
  forallb is_nan xs = true ->
  exists e, clean_data rt data_path fs = (Raise e, fs).
Proof.
  intros Hp Hg Hd Hnan. apply (clean_data_raise rt data_path fs raw Hp).
  intros out Ht.
  apply transform_inv in Ht as (k & cl & r & i & Hk & Hcl & Hr & Hi & _).
  assert (get l k = Ok (ColFloat xs)) as Hgk
    by (rewrite (PruneFacts.drop_get_other _ _ _ l Hk Hd); exact Hg).
  assert (get l cl = Ok (ColFloat xs)) as Hgc.
  { destruct (in_dec string_dec l pct_cols) as [Hin|Hout].
    - assert (NoDup pct_cols) as Hnd by (apply nodupb_NoDup; reflexivity).
      destruct (clamp_all_each _ _ _ Hnd Hcl l Hin) as (c & c' & Hc & Hcc & Ho).
      rewrite Hgk in Hc. injection Hc as <-. simpl in Hcc. injection Hcc as <-.
      rewrite Ho. do 2 f_equal. rewrite <- (map_id xs) at 2. apply map_ext_in.
      intros x Hx. rewrite forallb_forall in Hnan. specialize (Hnan x Hx).
      destruct x; try discriminate. reflexivity.
    - now rewrite (clamp_all_other _ _ _ l Hcl Hout). }
  pose proof Hr as Hr'. apply fix_density_inv in Hr' as (ys & Hdens & ->).
  assert (l <> density_col) as Hne by (intros ->; congruence).
  assert (In (l, ColFloat xs) (cols (set density_col (ColObj (map str_replace_obj ys)) cl)))
    as Hin by (apply lookup_In, get_ok; rewrite get_set_other by exact Hne; exact Hgc).
  apply impute_missing_inv in Hi as (d' & _ & _ & Hknn & _).
  pose proof (ImputeFacts.knn_impute_no_blank rt _ d' l (ColFloat xs) Hknn Hin eq_refl)
    as Hblank.
  simpl in Hblank. unfold all_missing in Hblank. congruence.
Qed.

Lemma blank_numeric_column_fails_witness :
  get "latitude" (normalise_columns Sample.raw_blank) = Ok (ColFloat [nan; nan; nan])
  /\ ~ In "latitude" dropped_cols
  /\ exists e,
       clean_data Ref.runtime Sample.raw_path (Sample.disk Sample.raw_blank)
       = (Raise e, Sample.disk Sample.raw_blank).
Proof.
  assert (~ In "latitude" dropped_cols) as Hd by (vm_compute; intuition discriminate).
  split; [vm_compute; reflexivity|]. split; [exact Hd|].
  apply (blank_numeric_column_fails Ref.runtime Sample.raw_path
           (Sample.disk Sample.raw_blank) Sample.raw_blank "latitude" [nan; nan; nan]).
  - reflexivity.
  - vm_compute. reflexivity.
  - exact Hd.
  - reflexivity.
Defined.

(** ** The documents of [post_to_elasticsearch] *)
Module LoadFacts.

Import F64 Frame Clean Load ResultFacts FrameFacts CleanFacts.
Local Open Scope list_scope.

Lemma dict_set_fresh (k : string) (v : obj) (d : dict) :
  ~ In k (map fst d) -> dict_set k v d = d ++ [(k, v)].
Proof.
  induction d as [|[k' v'] r IH]; simpl; intro H; [reflexivity|].
  destruct (String.eqb k' k) eqn:E.
  - apply String.eqb_eq in E. tauto.
  - f_equal. apply IH. tauto.
Qed.

Lemma to_dict_from (row acc : dict) :
  NoDup (map fst acc ++ map fst row) ->
  fold_left (fun d kv => dict_set (fst kv) (snd kv) d) row acc = acc ++ row.
Proof.
  revert acc. induction row as [|[k v] r IH]; simpl; intros acc H.
  - now rewrite app_nil_r.
  - rewrite dict_set_fresh.
    + rewrite IH; [now rewrite <- app_assoc|].
      rewrite map_app. simpl. now rewrite <- app_assoc.
    + apply NoDup_remove_2 in H. intro Hin. apply H. apply in_or_app. now left.
Qed.

(** With distinct labels the dict of a row is the row. *)
Lemma to_dict_unique (row : dict) : NoDup (map fst row) -> to_dict row = row.
Proof. intro H. unfold to_dict. now rewrite to_dict_from. Qed.

Lemma row_at_keys (data : frame) (i : nat) : map fst (row_at data i) = names data.
Proof. unfold row_at, names. rewrite map_map. reflexivity. Qed.

Lemma row_values_length (t : dtype) (c : column) :
  List.length (row_values t c) = col_len c.
Proof. destruct c; simpl; try destruct t; now rewrite ?length_map. Qed.

Lemma dict_get_mapped (g : column -> obj) (l : string) (cs : list (string * column)) :
  dict_get l (map (fun lc => (fst lc, g (snd lc))) cs) = option_map g (lookup l cs).
Proof.
  induction cs as [|[l0 c0] r IH]; simpl; [reflexivity|].
  destruct (String.eqb l0 l); [reflexivity|exact IH].
Qed.

Lemma nth_error_map_seq {A : Type} (f : nat -> A) (a n i : nat) :
  i < n -> nth_error (map f (seq a n)) i = Some (f (a + i)).
Proof.
  revert a i. induction n as [|n IH]; intros a i H; [lia|].
  destruct i as [|i]; simpl.
  - now rewrite Nat.add_0_r.
  - rewrite IH by lia. f_equal. f_equal. lia.
Qed.

(** Document [i] of a rectangular table with distinct labels. *)
Lemma action_at (data : frame) (index_name : string) (i : nat) :
  unique_labels data -> i < nrows data ->
  nth_error (actions data index_name) i
  = Some (mkAction index_name (row_at data i)).
Proof.
  intros U Hi. unfold actions. rewrite nth_error_map_seq by exact Hi. simpl.
  rewrite to_dict_unique; [reflexivity|]. now rewrite row_at_keys.
Qed.

Lemma cell_at (data : frame) (i : nat) (l : string) (c : column) :
  rectangular data -> unique_labels data -> i < nrows data ->
  In (l, c) (cols data) ->
  exists v, nth_error (row_values (table_dtype data) c) i = Some v
            /\ dict_get l (row_at data i) = Some v.
Proof.
  intros R U Hi Hin.
  exists (nth i (row_values (table_dtype data) c) (OFloat nan)). split.
  - apply nth_error_nth'. rewrite row_values_length.
    now rewrite (rectangular_In l c data R Hin).
  - unfold row_at.
    rewrite (dict_get_mapped
               (fun c => nth i (row_values (table_dtype data) c) (OFloat nan))).
    now rewrite (unique_lookup l (cols data) c U Hin).
Qed.

Lemma forallb_refuted {A : Type} (p : A -> bool) (l : list A) (a : A) :
  In a l -> p a = false -> forallb p l = false.
Proof.
  intros Hin Hp. destruct (forallb p l) eqn:E; [|reflexivity].
  rewrite forallb_forall in E. specialize (E a Hin). congruence.
Qed.

Lemma common_dtype_float (ts : list dtype) :
  (forall t, In t ts -> t = Int64 \/ t = Float64) -> In Float64 ts ->
  common_dtype ts = Float64.
Proof.
  intros Hnum Hf. unfold common_dtype.
  rewrite (forallb_refuted _ ts Float64 Hf eq_refl).
  assert (forallb (fun t => match t with Int64 | Float64 => true | _ => false end) ts
          = true) as ->; [|reflexivity].
  apply forallb_forall. intros t Ht. destruct (Hnum t Ht) as [-> | ->]; reflexivity.
Qed.

Lemma common_dtype_object (ts : list dtype) :
  In Object ts -> common_dtype ts = Object.
Proof.
  intro Ho. unfold common_dtype.
  now rewrite !(forallb_refuted _ ts Object Ho eq_refl).
Qed.

End LoadFacts.

(** X13.  The actions built at lines 139-145 are the rows of the table: on
    a rectangular table with distinct labels there is one action per row, in
    row order, each addressed to [index_name], whose source has the labels
    of the table as its keys and under each label the cell of that row. *)
Theorem documents_are_rows (data_path index_name : string) (fs : store)
  (data : frame) (acts : list Load.action) :
  fs data_path = Some data ->
  rectangular data ->
  unique_labels data ->
  Load.post_to_elasticsearch data_path index_name fs = Ok acts ->
  List.length acts = nrows data
  /\ forall i, i < nrows data ->
       exists a,
         nth_error acts i = Some a
         /\ Load._index a = index_name
         /\ map fst (Load._source a) = names data
         /\ forall l c, In (l, c) (cols data) ->
              exists v,
                nth_error (Load.row_values (Load.table_dtype data) c) i = Some v
                /\ Load.dict_get l (Load._source a) = Some v.
Proof.
  intros Hp R U H. unfold Load.post_to_elasticsearch, read_csv in H.
  rewrite Hp in H. simpl in H. injection H as <-. split.
  - unfold Load.actions. now rewrite length_map, length_seq.
  - intros i Hi. exists (Load.mkAction index_name (Load.row_at data i)).
    split; [now apply LoadFacts.action_at|]. split; [reflexivity|].
    split; [apply LoadFacts.row_at_keys|].
    intros l c Hin. now apply LoadFacts.cell_at.
Qed.

Lemma documents_are_rows_witness :
  rectangular Sample.reloaded
  /\ unique_labels Sample.reloaded
  /\ exists acts,
       Load.post_to_elasticsearch clean_path "sdg_data" Sample.clean_disk = Ok acts
       /\ List.length acts = 3
       /\ exists a,
            nth_error acts 1 = Some a
            /\ Load._index a = "sdg_data"
            /\ Load.dict_get "density_n" (Load._source a) = Some (OFloat (Ref.num "60")).
Proof.
  assert (rectangular Sample.reloaded) as R by (apply rectangularb_ok; reflexivity).
  assert (unique_labels Sample.reloaded) as U
    by (apply nodupb_NoDup; vm_compute; reflexivity).
  split; [exact R|]. split; [exact U|].
  eexists. split; [reflexivity|].
  destruct (documents_are_rows clean_path "sdg_data" Sample.clean_disk
              Sample.reloaded _ eq_refl R U eq_refl) as (Hlen & Hrows).
  split; [exact Hlen|].
  assert (1 < nrows Sample.reloaded) as Hlt by (simpl; lia).
  destruct (Hrows 1 Hlt) as (a & Ha & Hi & _ & Hcell).
  exists a. split; [exact Ha|]. split; [exact Hi|].
  destruct (Hcell "density_n"
              (ColFloat [Ref.num "12.5"; Ref.num "60"; Ref.num "36.25"]))
    as (v & Hv & Hget); [simpl; tauto|].
  rewrite Hget. exact (eq_sym Hv).
Defined.

(** X14.  How an integer cell is loaded depends on the other columns,
    because [iterrows] takes its rows from one array for the whole table: in
    a table of integer and float columns only, with at least one float
    column, the integer [z] is indexed as the float of [z]; in a table with
    an [object] column it is indexed as the integer [z]. *)
Theorem integers_in_documents (data : frame) (index_name l : string)
  (zs : list Z) (i : nat) (z : Z) :
  rectangular data ->
  unique_labels data ->
  In (l, ColInt zs) (cols data) ->
  nth_error zs i = Some z ->
  exists a,
    nth_error (Load.actions data index_name) i = Some a
    /\ ((forall l' c', In (l', c') (cols data) -> is_number c' = true) ->
        (exists l' xs, In (l', ColFloat xs) (cols data)) ->
        Load.dict_get l (Load._source a) = Some (OFloat (of_Z z)))
    /\ ((exists l' os, In (l', ColObj os) (cols data)) ->
        Load.dict_get l (Load._source a) = Some (OInt z)).
Proof.
  intros R U Hin Hz.
  assert (i < nrows data) as Hi.
  { rewrite <- (CleanFacts.rectangular_In l (ColInt zs) data R Hin). simpl.
    apply nth_error_Some. congruence. }
  exists (Load.mkAction index_name (Load.row_at data i)).
  split; [now apply LoadFacts.action_at|].
  destruct (LoadFacts.cell_at data i l (ColInt zs) R U Hi Hin) as (v & Hv & Hget).
  simpl Load._source. rewrite Hget. split.
  - intros Hnum (l' & xs & Hf).
    assert (Load.table_dtype data = Float64) as Ht.
    { apply LoadFacts.common_dtype_float.
      - intros t Ht. apply in_map_iff in Ht as ([l0 c0] & <- & Hc).
        specialize (Hnum l0 c0 Hc). destruct c0; simpl in *; auto; discriminate.
      - apply in_map_iff. exists (l', ColFloat xs). now split. }
    rewrite Ht in Hv. simpl in Hv. rewrite nth_error_map, Hz in Hv. exact (eq_sym Hv).
  - intros (l' & os & Ho).
    assert (Load.table_dtype data = Object) as Ht.
    { apply LoadFacts.common_dtype_object.
      apply in_map_iff. exists (l', ColObj os). now split. }
    rewrite Ht in Hv. simpl in Hv. rewrite nth_error_map, Hz in Hv. exact (eq_sym Hv).
Qed.

Lemma integers_in_documents_witness :
  rectangular Sample.imputed_numbers
  /\ unique_labels Sample.imputed_numbers
  /\ exists a,
       nth_error (Load.actions Sample.imputed_numbers "sdg_data") 0 = Some a
       /\ Load.dict_get "year" (Load._source a) = Some (OFloat (of_Z 2000)).
Proof.
  assert (rectangular Sample.imputed_numbers) as R
    by (apply rectangularb_ok; reflexivity).
  assert (unique_labels Sample.imputed_numbers) as U
    by (apply nodupb_NoDup; vm_compute; reflexivity).
  split; [exact R|]. split; [exact U|].
  destruct (integers_in_documents Sample.imputed_numbers "sdg_data" "year"
              [2000; 2001; 2002]%Z 0 2000%Z R U (or_introl eq_refl) eq_refl)
    as (a & Ha & Hfloat & _).
  exists a. split; [exact Ha|]. apply Hfloat.
  - intros l' c' Hin. simpl in Hin.
    destruct Hin as [E|[E|[]]]; injection E as _ <-; reflexivity.
  - exists "gdp_growth", [Ref.num "4.92"; Ref.num "-13.1"; Ref.num "250"].
    simpl. tauto.
Defined.

Module FillFacts.

Import F64 Frame Clean Notions CleanFacts.
Local Open Scope list_scope.

Lemma map_fixed {A : Type} (f : A -> A) (l : list A) :
  (forall x, f x = x) -> map f l = l.
Proof.
  intro H. induction l as [|x l IH]; simpl; [reflexivity|]. now rewrite H, IH.
Qed.

Lemma fillna_nan_floats (xs : list float) : map (fillna_float nan) xs = xs.
Proof. apply map_fixed. intros [| | |]; reflexivity. Qed.

Lemma fillna_nan_objects (os : list obj) : map (fillna_obj nan) os = os.
Proof. apply map_fixed. intros [s|z|[| | |]|b]; reflexivity. Qed.

Lemma as_floats_gaps (os : list obj) (ys : list float) :
  as_floats os = Some ys -> map is_nan ys = map is_missing os.
Proof.
  revert ys. induction os as [|o r IH]; simpl; intros ys H.
  - injection H as <-. reflexivity.
  - destruct (obj_as_float o) as [x|] eqn:Eo; [|discriminate].
    destruct (as_floats r) as [zs|]; [|discriminate]. injection H as <-.
    simpl. rewrite (IH zs eq_refl). f_equal.
    destruct o as [s|z|y|b]; simpl in Eo; try discriminate.
    + destruct ((int64_min <=? z)%Z && (z <=? uint64_max)%Z); [|discriminate].
      injection Eo as <-. apply F64Facts.of_Z_not_nan.
    + now injection Eo as <-.
Qed.

Lemma fillna_nan_gaps (c : column) : gaps (fillna_column nan c) = gaps c.
Proof.
  destruct c as [zs|xs|bs|os]; simpl; try reflexivity.
  - now rewrite fillna_nan_floats.
  - destruct (existsb is_missing os); [|reflexivity].
    rewrite fillna_nan_objects. unfold convert.
    destruct (existsb above_int64 os && existsb negative_int os); [reflexivity|].
    destruct (as_floats os) as [ys|] eqn:E; [|reflexivity].
    unfold gaps. simpl. rewrite map_map. simpl. now apply as_floats_gaps.
Qed.

End FillFacts.

(** X15.  When the median of the density column is NaN (the column holds no
    number), the fill of line 110 closes no gap: the table keeps the labels
    of line 107 and, in every column, exactly the cells that were missing
    are still missing. *)
Theorem fill_without_median (rt : runtime) (d out : frame) (density : column)
  (v : float) :
  impute_missing rt d = Ok out ->
  get density_col d = Ok density ->
  median rt density = Ok v ->
  is_nan v = true ->
  exists d',
    knn_impute rt d = Ok d'
    /\ names out = names d'
    /\ forall l c, In (l, c) (cols d') ->
         exists c', In (l, c') (cols out) /\ Notions.gaps c' = Notions.gaps c.
Proof.
  intros H Hg Hm Hv.
  apply impute_missing_inv in H as (d' & dc & v' & Hknn & Hg' & Hm' & ->).
  rewrite Hg in Hg'. injection Hg' as <-. rewrite Hm in Hm'. injection Hm' as <-.
  destruct v; try discriminate. change S754_nan with nan.
  exists d'. split; [exact Hknn|]. split.
  - exact (proj1 (proj2 (fillna_shape nan d'))).
  - intros l c Hin. exists (fillna_column nan c). split.
    + unfold fillna. simpl. apply in_map_iff. now exists (l, c).
    + apply FillFacts.fillna_nan_gaps.
Qed.

Lemma fill_without_median_witness :
  impute_missing Sample.nan_runtime Sample.unmeasured = Ok Sample.unmeasured_imputed
  /\ median Sample.nan_runtime (ColObj [OStr "NAN"; OFloat nan]) = Ok nan
  /\ exists d',
       knn_impute Sample.nan_runtime Sample.unmeasured = Ok d'
       /\ names Sample.unmeasured_imputed = names d'
       /\ forall l c, In (l, c) (cols d') ->
            exists c', In (l, c') (cols Sample.unmeasured_imputed)
                       /\ Notions.gaps c' = Notions.gaps c.
Proof.
  assert (impute_missing Sample.nan_runtime Sample.unmeasured
          = Ok Sample.unmeasured_imputed) as H by (vm_compute; reflexivity).
  split; [exact H|]. split; [vm_compute; reflexivity|].
  exact (fill_without_median Sample.nan_runtime Sample.unmeasured
           Sample.unmeasured_imputed (ColObj [OStr "NAN"; OFloat nan]) nan
           H eq_refl eq_refl eq_refl).
Defined.
